(** * AI chat backend: users, conversations, messages and the provider bridge

    A shallow embedding of the service layer (user_service.go,
    chat_service.go, the AI service) and of the pagination prologue of the
    chat handler, together with the properties the specification states
    about them.

    The relational store, the clock, the two helpers of package utils and
    the remote model are outside the repository.  The store is modelled at
    the level of the SQL statements the ORM issues (soft delete included);
    the clock, the failures of the store and the behaviour of the remote
    model are an environment the service functions are run against. *)

From Stdlib Require Import String Ascii List ZArith NArith Bool Arith Lia.
From Stdlib Require Import Sorted.
Import ListNotations.

Local Open Scope string_scope.
Local Open Scope list_scope.

(** ** Basic types *)

(** Go's [uint], used for every identifier.  No arithmetic is done on
    identifiers besides the allocation of a fresh one. *)
Definition uint := N.
Bind Scope N_scope with uint.

(** [time.Time], as a count of clock units. *)
Definition Time := Z.
Bind Scope Z_scope with Time.

(** The error values the modelled code creates, returns or wraps. *)
Inductive error : Type :=
| ErrRecordNotFound                       (* gorm.ErrRecordNotFound *)
| ErrDuplicatedKey                        (* a unique index rejected the row *)
| ErrStore (msg : string)                 (* any other failure of the store *)
| ErrNew (msg : string)                   (* errors.New, fmt.Errorf without %w *)
| ErrWrap (msg : string) (cause : error)  (* fmt.Errorf("...: %w", err) *)
| ErrSyntax                               (* strconv.ErrSyntax *)
| ErrRange                                (* strconv.ErrRange *)
| ErrExternal (msg : string).             (* raised by an external collaborator *)

(** A Go result pair [(value, err)] in which exactly one side is meaningful. *)
Inductive result (A : Type) : Type :=
| Ok (a : A)
| Fail (err : error).
Arguments Ok {A} a.
Arguments Fail {A} err.

(** ** package model *)

Module User.
Record t := mk {
  ID : uint;
  Email : string;
  Password : string;
  Nickname : string;
  Avatar : string;
  IsActive : bool;
  CreatedAt : Time;
  UpdatedAt : Time;
  DeletedAt : option Time
}.
End User.

Module Conversation.
Record t := mk {
  ID : uint;
  UserID : uint;
  Title : string;
  CreatedAt : Time;
  UpdatedAt : Time;
  DeletedAt : option Time
}.
End Conversation.

Module Message.
Record t := mk {
  ID : uint;
  ConversationID : uint;
  Role : string;
  Content : string;
  CreatedAt : Time;
  UpdatedAt : Time;
  DeletedAt : option Time
}.
End Message.

(** ** package schema (the model input of the AI library) *)

Module schema.
Inductive RoleType := Assistant | User | System | Tool.

Record Message := mkMessage {
  Role : RoleType;
  Content : string
}.
End schema.

(** ** strconv.Atoi and the query helpers of the handler *)

Module strconv.
Local Open Scope Z_scope.

Definition maxInt : Z := 2 ^ 63 - 1.
Definition minInt : Z := - 2 ^ 63.

Definition is_digit (c : ascii) : bool :=
  let n := nat_of_ascii c in (48 <=? n)%nat && (n <=? 57)%nat.

Definition digit_val (c : ascii) : Z := Z.of_nat (nat_of_ascii c) - 48.

Definition maxUint64 : Z := 2 ^ 64 - 1.

(** The loop of [ParseUint] in base 10, [n] being the value read so far:
    a byte that is no digit is a syntax error with value 0; a digit that
    takes the value past [maxVal] (or past 64 bits) ends the loop at once
    with [maxVal] and a range error, whatever follows it. *)
Fixpoint ParseUint_loop (maxVal : Z) (s : string) (n : Z) : Z * option error :=
  match s with
  | EmptyString => (n, None)
  | String c rest =>
      if is_digit c then
        if n >=? maxUint64 / 10 + 1 then (maxVal, Some ErrRange)
        else
          let n1 := n * 10 + digit_val c in
          if (n1 >? maxUint64) || (n1 >? maxVal) then (maxVal, Some ErrRange)
          else ParseUint_loop maxVal rest n1
      else (0, Some ErrSyntax)
  end.

(** [ParseUint(s, 10, bitSize)]: no sign, and the empty string is a syntax
    error. *)
Definition ParseUint (s : string) (bitSize : Z) : Z * option error :=
  match s with
  | EmptyString => (0, Some ErrSyntax)
  | _ => ParseUint_loop (2 ^ bitSize - 1) s 0
  end.

Definition strip_sign (s : string) : bool * string :=
  match s with
  | String "-"%char rest => (true, rest)
  | String "+"%char rest => (false, rest)
  | _ => (false, s)
  end.

(** [ParseInt(s, 10, 0)] on a 64-bit platform: the sign is taken off, the
    rest goes through [ParseUint]; a syntax error gives 0, a magnitude
    outside [int] gives the nearest bound with a range error. *)
Definition ParseInt (s : string) : Z * option error :=
  match s with
  | EmptyString => (0, Some ErrSyntax)
  | _ =>
      let (neg, body) := strip_sign s in
      match ParseUint body 64 with
      | (un, None) | (un, Some ErrRange) =>
          let cutoff := 2 ^ 63 in
          if negb neg && (un >=? cutoff) then (cutoff - 1, Some ErrRange)
          else if neg && (un >? cutoff) then (- cutoff, Some ErrRange)
          else (if neg then - un else un, None)
      | (_, Some err) => (0, Some err)
      end
  end.

(** [Atoi]: [ParseInt(s, 10, 0)] converted to [int]; its fast path for
    short strings computes the same result.  The handlers drop the
    error. *)
Definition Atoi (s : string) : Z * option error := ParseInt s.
End strconv.

(** [c.DefaultQuery(key, def)]: the value of the query parameter when the
    request carries it, [def] otherwise. *)
Definition DefaultQuery (param : option string) (def : string) : string :=
  match param with
  | Some v => v
  | None => def
  end.

(** ** package handler: the pagination prologue *)

Module handler.
Local Open Scope Z_scope.

(** GetConversations, from the two query parameters to the [page] and
    [pageSize] passed to the service and echoed in the response. *)
Definition GetConversations_pagination (page_q page_size_q : option string)
  : Z * Z :=
  let page := fst (strconv.Atoi (DefaultQuery page_q "1")) in
  let pageSize := fst (strconv.Atoi (DefaultQuery page_size_q "20")) in
  let page := if page <? 1 then 1 else page in
  let pageSize :=
    if (pageSize <? 1) || (pageSize >? 100) then 20 else pageSize in
  (page, pageSize).

(** GetMessages: the same prologue with 50 as the default. *)
Definition GetMessages_pagination (page_q page_size_q : option string)
  : Z * Z :=
  let page := fst (strconv.Atoi (DefaultQuery page_q "1")) in
  let pageSize := fst (strconv.Atoi (DefaultQuery page_size_q "50")) in
  let page := if page <? 1 then 1 else page in
  let pageSize :=
    if (pageSize <? 1) || (pageSize >? 100) then 50 else pageSize in
  (page, pageSize).

(** Clamping as the specification words it: a value below the interval
    becomes its lower end, a value above it its upper end. *)
Definition spec_clamp (lo hi x : Z) : Z := Z.max lo (Z.min hi x).
End handler.

(** ** The relational store

    Three tables.  A table is the list of its rows in primary-key order,
    which is insertion order since keys are allocated increasingly and rows
    are never removed physically: deletion sets [DeletedAt], and every
    query the ORM builds for these models skips the rows that carry it. *)

Record DB := mkDB {
  users : list User.t;
  conversations : list Conversation.t;
  messages : list Message.t
}.

(** What the ORM knows of a model type: its table, its primary key, its
    soft-delete marker, its automatic timestamps and its unique indexes. *)
Class Model (T : Type) := {
  table : DB -> list T;
  with_table : list T -> DB -> DB;
  pk : T -> uint;
  with_pk : uint -> T -> T;
  deleted_at : T -> option Time;
  with_deleted_at : option Time -> T -> T;
  created_at : T -> Time;
  with_timestamps : Time -> T -> T;
  unique_clash : T -> T -> bool
}.

#[global] Instance Model_User : Model User.t := {
  table := users;
  with_table l d := mkDB l (conversations d) (messages d);
  pk := User.ID;
  with_pk i u :=
    User.mk i (User.Email u) (User.Password u) (User.Nickname u)
      (User.Avatar u) (User.IsActive u) (User.CreatedAt u) (User.UpdatedAt u)
      (User.DeletedAt u);
  deleted_at := User.DeletedAt;
  with_deleted_at t u :=
    User.mk (User.ID u) (User.Email u) (User.Password u) (User.Nickname u)
      (User.Avatar u) (User.IsActive u) (User.CreatedAt u) (User.UpdatedAt u) t;
  created_at := User.CreatedAt;
  with_timestamps now u :=
    User.mk (User.ID u) (User.Email u) (User.Password u) (User.Nickname u)
      (User.Avatar u) (User.IsActive u) now now (User.DeletedAt u);
  (* uniqueIndex on email *)
  unique_clash u v := String.eqb (User.Email u) (User.Email v)
}.

#[global] Instance Model_Conversation : Model Conversation.t := {
  table := conversations;
  with_table l d := mkDB (users d) l (messages d);
  pk := Conversation.ID;
  with_pk i c :=
    Conversation.mk i (Conversation.UserID c) (Conversation.Title c)
      (Conversation.CreatedAt c) (Conversation.UpdatedAt c)
      (Conversation.DeletedAt c);
  deleted_at := Conversation.DeletedAt;
  with_deleted_at t c :=
    Conversation.mk (Conversation.ID c) (Conversation.UserID c)
      (Conversation.Title c) (Conversation.CreatedAt c)
      (Conversation.UpdatedAt c) t;
  created_at := Conversation.CreatedAt;
  with_timestamps now c :=
    Conversation.mk (Conversation.ID c) (Conversation.UserID c)
      (Conversation.Title c) now now (Conversation.DeletedAt c);
  unique_clash _ _ := false
}.

#[global] Instance Model_Message : Model Message.t := {
  table := messages;
  with_table l d := mkDB (users d) (conversations d) l;
  pk := Message.ID;
  with_pk i m :=
    Message.mk i (Message.ConversationID m) (Message.Role m)
      (Message.Content m) (Message.CreatedAt m) (Message.UpdatedAt m)
      (Message.DeletedAt m);
  deleted_at := Message.DeletedAt;
  with_deleted_at t m :=
    Message.mk (Message.ID m) (Message.ConversationID m) (Message.Role m)
      (Message.Content m) (Message.CreatedAt m) (Message.UpdatedAt m) t;
  created_at := Message.CreatedAt;
  with_timestamps now m :=
    Message.mk (Message.ID m) (Message.ConversationID m) (Message.Role m)
      (Message.Content m) now now (Message.DeletedAt m);
  unique_clash _ _ := false
}.

(** [deleted_at IS NULL] *)
Definition visible {T} `{Model T} (r : T) : bool :=
  match deleted_at r with
  | None => true
  | Some _ => false
  end.

(** AUTO_INCREMENT: one more than the largest key of the table. *)
Definition next_id {T} `{Model T} (rows : list T) : uint :=
  N.succ (fold_right N.max 0%N (map pk rows)).

(** [ORDER BY key ASC]: a stable insertion sort, rows with equal keys stay
    in primary-key order. *)
Fixpoint insert_by {T} (key : T -> Time) (x : T) (l : list T) : list T :=
  match l with
  | [] => [x]
  | y :: rest =>
      if (key x <=? key y)%Z then x :: y :: rest
      else y :: insert_by key x rest
  end.

Definition order_by {T} (key : T -> Time) (l : list T) : list T :=
  fold_right (insert_by key) [] l.

(** The statements, as functions of the store.  [now] is the ORM's
    [NowFunc()] at the time of the statement. *)

(** [Where(w).First(&r)]: the visible row of least key that satisfies [w]. *)
Definition select_first {T} `{Model T} (w : T -> bool) (d : DB) : result T :=
  match find (fun r => w r && visible r) (table d) with
  | Some r => Ok r
  | None => Fail ErrRecordNotFound
  end.

(** [Where(w).Order("created_at ASC").Limit(n).Find(&rows)] *)
Definition select_ordered {T} `{Model T} (w : T -> bool) (n : nat) (d : DB)
  : list T :=
  firstn n (order_by created_at (filter (fun r => w r && visible r) (table d))).

(** [Create(&r)]: key and timestamps are filled in, the row is appended;
    a unique index the row clashes on rejects it. *)
Definition insert_row {T} `{Model T} (now : Time) (value : T) (d : DB)
  : result T * DB :=
  let row := with_pk (next_id (table d)) (with_timestamps now value) in
  if existsb (unique_clash row) (table d) then (Fail ErrDuplicatedKey, d)
  else (Ok row, with_table (table d ++ [row]) d).

(** [Where(w).Delete(&T{})] on a model with a soft-delete marker:
    [UPDATE ... SET deleted_at = now WHERE w AND deleted_at IS NULL]. *)
Definition soft_delete {T} `{Model T} (now : Time) (w : T -> bool) (d : DB)
  : DB :=
  with_table
    (map (fun r => if w r && visible r then with_deleted_at (Some now) r else r)
       (table d)) d.

(** [Model(&conversation).Update("updated_at", v)]:
    [UPDATE conversations SET updated_at = v WHERE id = conversation.ID
     AND deleted_at IS NULL]. *)
Definition set_updated_at (conversation : Conversation.t) (v : Time) (d : DB)
  : DB :=
  with_table
    (map (fun c : Conversation.t =>
            if (Conversation.ID c =? Conversation.ID conversation)%N && visible c
            then Conversation.mk (Conversation.ID c) (Conversation.UserID c)
                   (Conversation.Title c) (Conversation.CreatedAt c) v
                   (Conversation.DeletedAt c)
            else c)
       (conversations d)) d.

(** Go's [int] on a 64-bit platform: results of arithmetic wrap around. *)
Definition wrap_int (z : Z) : Z := ((z + 2 ^ 63) mod 2 ^ 64 - 2 ^ 63)%Z.

(** [Where(w).Model(&T{}).Count(&total)] *)
Definition count_rows {T} `{Model T} (w : T -> bool) (d : DB) : Z :=
  Z.of_nat (length (filter (fun r => w r && visible r) (table d))).

(** [Offset(offset).Limit(limit)]: the ORM emits OFFSET only for a positive
    offset and LIMIT only for a non-negative limit. *)
Definition window {T} (offset limit : Z) (l : list T) : list T :=
  let rest := if (0 <? offset)%Z then skipn (Z.to_nat offset) l else l in
  if (0 <=? limit)%Z then firstn (Z.to_nat limit) rest else rest.

(** [Where(w).Order(key ASC).Offset(offset).Limit(limit).Find(&rows)];
    a descending order is an ascending order on the negated key. *)
Definition select_page {T} `{Model T} (w : T -> bool) (key : T -> Time)
  (offset limit : Z) (d : DB) : list T :=
  window offset limit
    (order_by key (filter (fun r => w r && visible r) (table d))).

(** [Model(&T{}).Where(w).Update(s)]: [UPDATE ... SET ... WHERE w AND
    deleted_at IS NULL], [change] being the assignments. *)
Definition update_rows {T} `{Model T} (w : T -> bool) (change : T -> T)
  (d : DB) : DB :=
  with_table (map (fun r => if w r && visible r then change r else r) (table d))
    d.

(** [errors.Is(err, gorm.ErrRecordNotFound)]: the error or one it wraps. *)
Fixpoint is_record_not_found (err : error) : bool :=
  match err with
  | ErrRecordNotFound => true
  | ErrWrap _ cause => is_record_not_found cause
  | _ => false
  end.

(** ** The environment and the state of a run *)

(** What one iteration of the [select] in StreamChat receives: a chunk from
    the chunk channel, the closing of the chunk channel, or a value from the
    error channel ([None] is Go's nil, which a closed error channel yields
    too). *)
Inductive SelectEvent :=
| RecvChunk (chunk : string)
| RespClosed
| RecvErr (err : option error).

(** Everything the services do not decide themselves.  Statements sent to
    the store are numbered from 0 in the order they are issued;
    [fault_plan k] is the failure of statement [k], if the store fails it,
    and [clock k] the time at which it runs.  Calls to the remote model are
    numbered likewise: [generate_plan k] is what the [k]-th call returns
    when it is a single-shot call, [stream_plan k] is what the select loop
    receives from the two channels, in order, when it is a streaming call.
    A finite [stream_plan] that ends without [RespClosed] or an error is a
    stream that stalls with both channels open. *)
Record Env := mkEnv {
  fault_plan : nat -> option error;
  clock : nat -> Time;
  generate_plan : nat -> option schema.Message * option error;
  stream_plan : nat -> list SelectEvent;
  (* package utils and package config: not part of the sources at hand *)
  HashPassword : string -> string * option error;
  GenerateJWT : uint -> string -> Z -> string * option error;
  JWT_Secret : string;
  JWT_Expiration : Z
}.

Record State := mkState {
  db : DB;
  stmt_no : nat;                          (* statements issued so far *)
  ai_log : list (list schema.Message)     (* inputs sent to the model *)
}.

(** State passing, with the usual notation. *)
Definition M (A : Type) : Type := State -> A * State.

Definition ret {A} (a : A) : M A := fun s => (a, s).

Definition bind {A B} (c : M A) (k : A -> M B) : M B :=
  fun s => let (a, s') := c s in k a s'.

Declare Scope go_scope.
Delimit Scope go_scope with go.
Notation "x <- c ;; k" := (bind c (fun x => k))
  (at level 61, c at next level, right associativity) : go_scope.
Notation "c ;; k" := (bind c (fun _ => k))
  (at level 61, right associativity) : go_scope.

(** ** package service *)

Module service.
Local Open Scope go_scope.

Record RegisterRequest := mkRegisterRequest {
  req_Email : string;
  req_Password : string;
  req_Nickname : string
}.

Record LoginResponse := mkLoginResponse {
  Token : string;
  User : User.t
}.

Record SendMessageRequest := mkSendMessageRequest {
  Content : string
}.

(** What leaves the select loop of StreamChat: the label [StreamEnd] with
    the accumulated text, a [return] with an error, or nothing at all when
    the loop waits forever. *)
Inductive LoopExit :=
| StreamEnd (fullResponse : string)
| ReturnErr (err : error)
| Waiting.

(** The role switch that SendMessage and StreamChat both apply to every
    history row. *)
Definition role_of (role : string) : schema.RoleType :=
  if role =? "user" then schema.User
  else if role =? "assistant" then schema.Assistant
  else if role =? "system" then schema.System
  else schema.User.

Definition to_ai_message (msg : Message.t) : schema.Message :=
  schema.mkMessage (role_of (Message.Role msg)) (Message.Content msg).

(** The [for { select { ... } }] of StreamChat over what the select
    receives. *)
Fixpoint stream_loop (callback : string -> option error)
  (events : list SelectEvent) (fullResponse : string) : LoopExit :=
  match events with
  | [] => Waiting
  | RecvChunk chunk :: rest =>
      let fullResponse := (fullResponse ++ chunk)%string in
      match callback chunk with
      | Some err => ReturnErr err
      | None => stream_loop callback rest fullResponse
      end
  | RespClosed :: _ => StreamEnd fullResponse
  | RecvErr (Some err) :: _ => ReturnErr err
  | RecvErr None :: rest => stream_loop callback rest fullResponse
  end.

Section WithEnv.
Variable env : Env.

(** One statement sent to the store: it fails as the environment plans, or
    runs on the current store at the current time. *)
Definition statement {A} (body : Time -> DB -> result A * DB) : M (result A) :=
  fun s =>
    let k := stmt_no s in
    match fault_plan env k with
    | Some err => (Fail err, mkState (db s) (S k) (ai_log s))
    | None =>
        let (r, d) := body (clock env k) (db s) in
        (r, mkState d (S k) (ai_log s))
    end.

Definition First {T} `{Model T} (w : T -> bool) : M (result T) :=
  statement (fun _ d => (select_first w d, d)).

Definition Find_Order_Limit {T} `{Model T} (w : T -> bool) (n : nat)
  : M (result (list T)) :=
  statement (fun _ d => (Ok (select_ordered w n d), d)).

Definition Create {T} `{Model T} (value : T) : M (result T) :=
  statement (fun now d => insert_row now value d).

Definition Delete {T} `{Model T} (w : T -> bool) : M (result unit) :=
  statement (fun now d => (Ok tt, soft_delete now w d)).

Definition Update_updated_at (conversation : Conversation.t) (v : Time)
  : M (result unit) :=
  statement (fun _ d => (Ok tt, set_updated_at conversation v d)).

(** Transactions.  The services use one connection at a time, so a
    transaction is the stretch between [Begin] and [Commit] or [Rollback]:
    [Begin] remembers the store, [Rollback] puts it back, and a [Commit]
    that fails leaves nothing of the transaction behind. *)
Definition Begin : M DB := fun s => (db s, s).

Definition Rollback (tx : DB) : M unit :=
  fun s => (tt, mkState tx (stmt_no s) (ai_log s)).

Definition Commit (tx : DB) : M (option error) :=
  fun s =>
    let k := stmt_no s in
    match fault_plan env k with
    | Some err => (Some err, mkState tx (S k) (ai_log s))
    | None => (None, mkState (db s) (S k) (ai_log s))
    end.

(** *** ai_service.go *)

(** The call to the remote model: the input is recorded, the answer is the
    environment's. *)
Definition model_Generate (messages : list schema.Message)
  : M (option schema.Message * option error) :=
  fun s =>
    (generate_plan env (length (ai_log s)),
     mkState (db s) (stmt_no s) (ai_log s ++ [messages])).

Definition GenerateResponse (messages : list schema.Message)
  : M (string * option error) :=
  r <- model_Generate messages ;;
  match r with
  | (_, Some err) => ret ("", Some (ErrWrap "failed to generate response" err))
  | (None, None) => ret ("", Some (ErrNew "no response generated"))
  | (Some resp, None) =>
      if schema.Content resp =? "" then
        ret ("", Some (ErrNew "no response generated"))
      else ret (schema.Content resp, None)
  end.

(** StreamResponse starts the producer and hands back the two channels;
    here the channels are what the consumer's select receives from them. *)
Definition StreamResponse (messages : list schema.Message)
  : M (list SelectEvent) :=
  fun s =>
    (stream_plan env (length (ai_log s)),
     mkState (db s) (stmt_no s) (ai_log s ++ [messages])).

(** *** user_service.go *)

Definition Register (req : RegisterRequest)
  : M (option LoginResponse * option error) :=
  r <- First (fun u : User.t => User.Email u =? req_Email req) ;;
  match r with
  | Ok _ => ret (None, Some (ErrNew "email already exists"))
  | Fail _ =>
  match HashPassword env (req_Password req) with
  | (_, Some err) => ret (None, Some err)
  | (hashedPassword, None) =>
  r <- Create (User.mk 0%N (req_Email req) hashedPassword (req_Nickname req)
                 "" true 0%Z 0%Z None) ;;
  match r with
  | Fail dbErr => ret (None, Some dbErr)
  | Ok user =>
  match GenerateJWT env (User.ID user) (JWT_Secret env) (JWT_Expiration env) with
  | (_, Some err) => ret (None, Some err)
  | (token, None) => ret (Some (mkLoginResponse token user), None)
  end end end end.

(** *** chat_service.go *)

Definition DeleteConversation (userID conversationID : uint)
  : M (option error) :=
  tx <- Begin ;;
  r <- Delete (fun m : Message.t =>
                 (Message.ConversationID m =? conversationID)%N) ;;
  match r with
  | Fail err => Rollback tx ;; ret (Some err)
  | Ok _ =>
  r <- Delete (fun c : Conversation.t =>
                 (Conversation.ID c =? conversationID)%N
                 && (Conversation.UserID c =? userID)%N) ;;
  match r with
  | Fail err => Rollback tx ;; ret (Some err)
  | Ok _ => Commit tx
  end end.

Definition SendMessage (userID conversationID : uint) (req : SendMessageRequest)
  : M (option Message.t * option Message.t * option error) :=
  r <- First (fun c : Conversation.t =>
                (Conversation.ID c =? conversationID)%N
                && (Conversation.UserID c =? userID)%N) ;;
  match r with
  | Fail err => ret (None, None, Some err)
  | Ok conversation =>
  r <- Create (Message.mk 0%N conversationID "user" (Content req) 0%Z 0%Z None) ;;
  match r with
  | Fail err => ret (None, None, Some err)
  | Ok userMessage =>
  r <- Find_Order_Limit
         (fun m : Message.t => (Message.ConversationID m =? conversationID)%N)
         20 ;;
  match r with
  | Fail err => ret (None, None, Some err)
  | Ok historyMessages =>
  let aiMessages := map to_ai_message historyMessages in
  r <- GenerateResponse aiMessages ;;
  match r with
  | (_, Some err) => ret (Some userMessage, None, Some err)
  | (aiResponse, None) =>
  r <- Create (Message.mk 0%N conversationID "assistant" aiResponse 0%Z 0%Z None) ;;
  match r with
  | Fail err => ret (Some userMessage, None, Some err)
  | Ok assistantMessage =>
  Update_updated_at conversation (Message.CreatedAt assistantMessage) ;;
  ret (Some userMessage, Some assistantMessage, None)
  end end end end end.

(** StreamChat returns [None] when its loop never exits. *)
Definition StreamChat (userID conversationID : uint) (content : string)
  (callback : string -> option error)
  : M (option (option Message.t * option error)) :=
  r <- First (fun c : Conversation.t =>
                (Conversation.ID c =? conversationID)%N
                && (Conversation.UserID c =? userID)%N) ;;
  match r with
  | Fail err => ret (Some (None, Some err))
  | Ok conversation =>
  r <- Create (Message.mk 0%N conversationID "user" content 0%Z 0%Z None) ;;
  match r with
  | Fail err => ret (Some (None, Some err))
  | Ok userMessage =>
  r <- Find_Order_Limit
         (fun m : Message.t => (Message.ConversationID m =? conversationID)%N)
         20 ;;
  match r with
  | Fail err => ret (Some (None, Some err))
  | Ok historyMessages =>
  let aiMessages := map to_ai_message historyMessages in
  events <- StreamResponse aiMessages ;;
  match stream_loop callback events "" with
  | Waiting => ret None
  | ReturnErr err => ret (Some (Some userMessage, Some err))
  | StreamEnd fullResponse =>
  r <- Create (Message.mk 0%N conversationID "assistant" fullResponse 0%Z 0%Z None) ;;
  match r with
  | Fail err =>
      ret (Some (Some userMessage,
                 Some (ErrWrap "failed to save assistant message" err)))
  | Ok assistantMessage =>
  Update_updated_at conversation (Message.CreatedAt assistantMessage) ;;
  ret (Some (Some userMessage, None))
  end end end end end.

(** The other operations of chat_service.go.  A nil slice is the empty
    list. *)

Definition Count {T} `{Model T} (w : T -> bool) : M (result Z) :=
  statement (fun _ d => (Ok (count_rows w d), d)).

Definition Find_Order_Offset_Limit {T} `{Model T} (w : T -> bool)
  (key : T -> Time) (offset limit : Z) : M (result (list T)) :=
  statement (fun _ d => (Ok (select_page w key offset limit d), d)).

Definition GetConversations (userID : uint) (page pageSize : Z)
  : M (list Conversation.t * Z * option error) :=
  r <- Count (fun c : Conversation.t => (Conversation.UserID c =? userID)%N) ;;
  match r with
  | Fail err => ret ([], 0%Z, Some err)
  | Ok total =>
  let offset := wrap_int (wrap_int (page - 1) * pageSize) in
  r <- Find_Order_Offset_Limit
         (fun c : Conversation.t => (Conversation.UserID c =? userID)%N)
         (fun c => (- Conversation.UpdatedAt c)%Z) offset pageSize ;;
  match r with
  | Fail err => ret ([], 0%Z, Some err)
  | Ok conversations => ret (conversations, total, None)
  end end.

Definition CreateConversation (userID : uint) (title : string)
  : M (option Conversation.t * option error) :=
  r <- Create (Conversation.mk 0%N userID title 0%Z 0%Z None) ;;
  match r with
  | Fail err => ret (None, Some err)
  | Ok conversation => ret (Some conversation, None)
  end.

Definition GetConversation (userID conversationID : uint)
  : M (option Conversation.t * option error) :=
  r <- First (fun c : Conversation.t =>
                (Conversation.ID c =? conversationID)%N
                && (Conversation.UserID c =? userID)%N) ;;
  match r with
  | Fail err => ret (None, Some err)
  | Ok conversation => ret (Some conversation, None)
  end.

(** [Update("title", title)] on a model with an automatic [UpdatedAt] also
    sets that column to the time of the statement. *)
Definition UpdateConversation (userID conversationID : uint) (title : string)
  : M (option error) :=
  r <- statement (fun now d =>
         (Ok tt,
          update_rows
            (fun c : Conversation.t =>
               (Conversation.ID c =? conversationID)%N
               && (Conversation.UserID c =? userID)%N)
            (fun c =>
               Conversation.mk (Conversation.ID c) (Conversation.UserID c)
                 title (Conversation.CreatedAt c) now
                 (Conversation.DeletedAt c))
            d)) ;;
  match r with
  | Fail err => ret (Some err)
  | Ok _ => ret None
  end.

Definition GetMessages (userID conversationID : uint) (page pageSize : Z)
  : M (list Message.t * Z * option error) :=
  r <- First (fun c : Conversation.t =>
                (Conversation.ID c =? conversationID)%N
                && (Conversation.UserID c =? userID)%N) ;;
  match r with
  | Fail err => ret ([], 0%Z, Some err)
  | Ok conversation =>
  r <- Count (fun m : Message.t =>
                (Message.ConversationID m =? conversationID)%N) ;;
  match r with
  | Fail err => ret ([], 0%Z, Some err)
  | Ok total =>
  let offset := wrap_int (wrap_int (page - 1) * pageSize) in
  r <- Find_Order_Offset_Limit
         (fun m : Message.t => (Message.ConversationID m =? conversationID)%N)
         Message.CreatedAt offset pageSize ;;
  match r with
  | Fail err => ret ([], 0%Z, Some err)
  | Ok messages => ret (messages, total, None)
  end end end.

End WithEnv.

(** The other operations of user_service.go.  [CheckPassword] belongs to
    package utils, like [HashPassword]. *)
Section Accounts.
Variable env : Env.
Variable CheckPassword : string -> string -> bool.

Record LoginRequest := mkLoginRequest {
  login_Email : string;
  login_Password : string
}.

Definition Login (req : LoginRequest)
  : M (option LoginResponse * option error) :=
  r <- First env (fun u : User.t =>
                    (User.Email u =? login_Email req)
                    && Bool.eqb (User.IsActive u) true) ;;
  match r with
  | Fail err =>
      if is_record_not_found err then
        ret (None, Some (ErrNew "invalid email or password"))
      else ret (None, Some err)
  | Ok user =>
  if negb (CheckPassword (login_Password req) (User.Password user)) then
    ret (None, Some (ErrNew "invalid email or password"))
  else
  match GenerateJWT env (User.ID user) (JWT_Secret env) (JWT_Expiration env) with
  | (_, Some err) => ret (None, Some err)
  | (token, None) => ret (Some (mkLoginResponse token user), None)
  end end.

Definition GetUserByID (userID : uint) : M (option User.t * option error) :=
  r <- First env (fun u : User.t =>
                    (User.ID u =? userID)%N
                    && Bool.eqb (User.IsActive u) true) ;;
  match r with
  | Fail err => ret (None, Some err)
  | Ok user => ret (Some user, None)
  end.

(** The map of updates: always [updated_at], [nickname] and [avatar] only
    when they are not empty. *)
Definition UpdateProfile (userID : uint) (nickname avatar : string)
  : M (option error) :=
  r <- statement env (fun now d =>
         (Ok tt,
          update_rows
            (fun u : User.t => (User.ID u =? userID)%N)
            (fun u =>
               User.mk (User.ID u) (User.Email u) (User.Password u)
                 (if nickname =? "" then User.Nickname u else nickname)
                 (if avatar =? "" then User.Avatar u else avatar)
                 (User.IsActive u) (User.CreatedAt u) now (User.DeletedAt u))
            d)) ;;
  match r with
  | Fail err => ret (Some err)
  | Ok _ => ret None
  end.

Definition ChangePassword (userID : uint) (oldPassword newPassword : string)
  : M (option error) :=
  r <- First env (fun u : User.t => (User.ID u =? userID)%N) ;;
  match r with
  | Fail err => ret (Some err)
  | Ok user =>
  if negb (CheckPassword oldPassword (User.Password user)) then
    ret (Some (ErrNew "invalid old password"))
  else
  match HashPassword env newPassword with
  | (_, Some err) => ret (Some err)
  | (hashedPassword, None) =>
  r <- statement env (fun now d =>
         (Ok tt,
          update_rows
            (fun u : User.t => (User.ID u =? User.ID user)%N)
            (fun u =>
               User.mk (User.ID u) (User.Email u) hashedPassword
                 (User.Nickname u) (User.Avatar u) (User.IsActive u)
                 (User.CreatedAt u) now (User.DeletedAt u))
            d)) ;;
  match r with
  | Fail err => ret (Some err)
  | Ok _ => ret None
  end end end.

End Accounts.
End service.

(** ** strconv.ParseUint and strings.TrimPrefix *)

(** [strconv.ParseUint(s, 10, 32)]: decimal digits only, no sign; a syntax
    error gives 0, a value that does not fit 32 bits gives the largest one;
    both come with an error. *)
Definition ParseUint32 (s : string) : N * option error :=
  let (n, err) := strconv.ParseUint s 32 in (Z.to_N n, err).

(** What is left of [s] after [prefix], when [s] starts with it. *)
Fixpoint CutPrefix (s prefix : string) : option string :=
  match prefix, s with
  | EmptyString, _ => Some s
  | String p prefix', String c s' =>
      if Ascii.eqb c p then CutPrefix s' prefix' else None
  | String _ _, EmptyString => None
  end.

Definition TrimPrefix (s prefix : string) : string :=
  match CutPrefix s prefix with
  | Some rest => rest
  | None => s
  end.

(** ** package middleware *)

Module middleware.

(** What the Auth middleware does with a request: it answers itself and
    aborts the chain, or it stores the user ID in the context and lets the
    next handler run. *)
Inductive Outcome :=
| Abort (status : Z) (error : string)
| Next (user_id : uint).

(** Auth, from the [Authorization] header.  [ValidateJWT] belongs to
    package utils; it is given the token and the configured secret and
    returns the user ID of the claims. *)
Definition Auth (ValidateJWT : string -> string -> result uint)
  (secret : string) (token : string) : Outcome :=
  if (String.length token =? 0)%nat then
    Abort 401 "Authorization header required"
  else
    let tokenString := TrimPrefix token "Bearer " in
    if tokenString =? token then Abort 401 "Invalid token format"
    else
      match ValidateJWT tokenString secret with
      | Fail _ => Abort 401 "Invalid token"
      | Ok user_id => Next user_id
      end.

End middleware.

(** ** package handler: the routes of chat_handler.go that take no body *)

Module chat_handler.

(** What a handler reads from the request: the user ID the Auth middleware
    left in the context, the [:id] path parameter and the two pagination
    query parameters. *)
Record Request := mkRequest {
  user_id : option uint;
  param_id : string;
  query_page : option string;
  query_page_size : option string
}.

(** The [Error] field of an error response: a literal, or [err.Error()]. *)
Inductive ErrorText :=
| Literal (text : string)
| ErrorOf (err : error).

Inductive Payload :=
| NoData
| OneConversation (conversation : Conversation.t)
| Conversations (conversations : list Conversation.t)
| Messages (messages : list Message.t).

Inductive Body :=
| ErrorResponse (Error : ErrorText)
| SuccessResponse (Message : string) (Data : Payload)
| PaginationResponse (Data : Payload) (Total Page PageSize TotalPages : Z).

Record Response := JSON {
  status : Z;
  body : Body
}.

Definition StatusOK : Z := 200.
Definition StatusBadRequest : Z := 400.
Definition StatusUnauthorized : Z := 401.
Definition StatusNotFound : Z := 404.
Definition StatusInternalServerError : Z := 500.

(** [int((total + int64(pageSize) - 1) / int64(pageSize))] *)
Definition totalPages (total pageSize : Z) : Z :=
  wrap_int (Z.quot (wrap_int (wrap_int (total + pageSize) - 1)) pageSize).

Section WithEnv.
Variable env : Env.
Local Open Scope go_scope.

Definition GetConversations (req : Request) : M Response :=
  match user_id req with
  | None =>
      ret (JSON StatusUnauthorized
             (ErrorResponse (Literal "User not authenticated")))
  | Some userID =>
  let (page, pageSize) :=
    handler.GetConversations_pagination (query_page req) (query_page_size req) in
  r <- service.GetConversations env userID page pageSize ;;
  match r with
  | (_, _, Some err) =>
      ret (JSON StatusInternalServerError (ErrorResponse (ErrorOf err)))
  | (conversations, total, None) =>
      ret (JSON StatusOK
             (PaginationResponse (Conversations conversations) total page
                pageSize (totalPages total pageSize)))
  end end.

Definition GetConversation (req : Request) : M Response :=
  match user_id req with
  | None =>
      ret (JSON StatusUnauthorized
             (ErrorResponse (Literal "User not authenticated")))
  | Some userID =>
  match ParseUint32 (param_id req) with
  | (_, Some _) =>
      ret (JSON StatusBadRequest
             (ErrorResponse (Literal "Invalid conversation ID")))
  | (conversationID, None) =>
  r <- service.GetConversation env userID conversationID ;;
  match r with
  | (_, Some _) =>
      ret (JSON StatusNotFound
             (ErrorResponse (Literal "Conversation not found")))
  | (Some conversation, None) =>
      ret (JSON StatusOK
             (SuccessResponse "Conversation retrieved successfully"
                (OneConversation conversation)))
  | (None, None) =>
      ret (JSON StatusOK
             (SuccessResponse "Conversation retrieved successfully" NoData))
  end end end.

Definition DeleteConversation (req : Request) : M Response :=
  match user_id req with
  | None =>
      ret (JSON StatusUnauthorized
             (ErrorResponse (Literal "User not authenticated")))
  | Some userID =>
  match ParseUint32 (param_id req) with
  | (_, Some _) =>
      ret (JSON StatusBadRequest
             (ErrorResponse (Literal "Invalid conversation ID")))
  | (conversationID, None) =>
  err <- service.DeleteConversation env userID conversationID ;;
  match err with
  | Some err =>
      ret (JSON StatusInternalServerError (ErrorResponse (ErrorOf err)))
  | None =>
      ret (JSON StatusOK
             (SuccessResponse "Conversation deleted successfully" NoData))
  end end end.

Definition GetMessages (req : Request) : M Response :=
  match user_id req with
  | None =>
      ret (JSON StatusUnauthorized
             (ErrorResponse (Literal "User not authenticated")))
  | Some userID =>
  match ParseUint32 (param_id req) with
  | (_, Some _) =>
      ret (JSON StatusBadRequest
             (ErrorResponse (Literal "Invalid conversation ID")))
  | (conversationID, None) =>
  let (page, pageSize) :=
    handler.GetMessages_pagination (query_page req) (query_page_size req) in
  r <- service.GetMessages env userID conversationID page pageSize ;;
  match r with
  | (_, _, Some err) =>
      ret (JSON StatusInternalServerError (ErrorResponse (ErrorOf err)))
  | (messages, total, None) =>
      ret (JSON StatusOK
             (PaginationResponse (Messages messages) total page pageSize
                (totalPages total pageSize)))
  end end end.

End WithEnv.
End chat_handler.

(** ** ai_service.go: the goroutine of StreamResponse and its two channels *)

Module ai_service.

(** What one [stream.Recv()] of the provider's stream returns: a chunk
    (possibly nil), [io.EOF], or another error.  With a chunk comes what
    the [select] around its forwarding does if it has content: it sends
    the content, or, when [done] is set, it takes [<-ctx.Done()]. *)
Inductive Recv :=
| Got (chunk : option schema.Message) (done : bool)
| EOF
| Broken (err : error).

(** What the goroutine does to the channels. *)
Inductive ChanOp :=
| SendResp (chunk : string)
| SendErr (err : error)
| CloseErr
| CloseResp.

(** The two deferred closes run when the goroutine returns, in the reverse
    order of their [defer]: the error channel first. *)
Definition closes : list ChanOp := [CloseErr; CloseResp].

(** The [for] loop over the provider's stream.  A stream whose [Recv] stops
    returning leaves the goroutine waiting, with both channels open. *)
Fixpoint forward (recvs : list Recv) : list ChanOp :=
  match recvs with
  | [] => []
  | Got chunk done :: rest =>
      match chunk with
      | None => forward rest
      | Some m =>
          if schema.Content m =? "" then forward rest
          else if done then closes
          else SendResp (schema.Content m) :: forward rest
      end
  | EOF :: _ => closes
  | Broken err :: _ => SendErr err :: closes
  end.

(** The goroutine of StreamResponse, from what [model.Stream] returns. *)
Definition StreamResponse_goroutine (stream : result (list Recv))
  : list ChanOp :=
  match stream with
  | Fail err => SendErr (ErrWrap "failed to create stream" err) :: closes
  | Ok recvs => forward recvs
  end.

(** The two channels: what is buffered in each and whether it is closed. *)
Record Chans := mkChans {
  resp_buf : list string;
  resp_closed : bool;
  err_buf : option error;
  err_closed : bool
}.

(** [make(chan string, 10)] and [make(chan error, 1)]. *)
Definition fresh : Chans := mkChans [] false None false.

Definition resp_cap : nat := 10.

(** One step of the goroutine: a send needs room in the buffer and an open
    channel, a close needs an open channel. *)
Definition produce (op : ChanOp) (c : Chans) : option Chans :=
  match op with
  | SendResp chunk =>
      if negb (resp_closed c) && (length (resp_buf c) <? resp_cap)%nat then
        Some (mkChans (resp_buf c ++ [chunk]) (resp_closed c) (err_buf c)
                (err_closed c))
      else None
  | SendErr err =>
      match err_buf c with
      | None =>
          if negb (err_closed c) then
            Some (mkChans (resp_buf c) (resp_closed c) (Some err)
                    (err_closed c))
          else None
      | Some _ => None
      end
  | CloseErr =>
      if err_closed c then None
      else Some (mkChans (resp_buf c) (resp_closed c) (err_buf c) true)
  | CloseResp =>
      if resp_closed c then None
      else Some (mkChans (resp_buf c) true (err_buf c) (err_closed c))
  end.

(** What the [select] of StreamChat may receive, one event per iteration,
    while the goroutine runs through [ops]: the two proceed in any
    interleaving; the select takes any case that is ready; a closed channel
    hands out what is still buffered before it reports the close; the
    consumer may stop at any time. *)
Inductive observes : list ChanOp -> Chans -> list SelectEvent -> Prop :=
| obs_stop ops c :
    observes ops c []
| obs_produce op ops c c' events :
    produce op c = Some c' ->
    observes ops c' events ->
    observes (op :: ops) c events
| obs_chunk ops chunk rest closed eb ec events :
    observes ops (mkChans rest closed eb ec) events ->
    observes ops (mkChans (chunk :: rest) closed eb ec)
      (RecvChunk chunk :: events)
| obs_resp_closed ops eb ec events :
    observes ops (mkChans [] true eb ec) events ->
    observes ops (mkChans [] true eb ec) (RespClosed :: events)
| obs_err ops rb rc err ec events :
    observes ops (mkChans rb rc None ec) events ->
    observes ops (mkChans rb rc (Some err) ec) (RecvErr (Some err) :: events)
| obs_err_closed ops rb rc events :
    observes ops (mkChans rb rc None true) events ->
    observes ops (mkChans rb rc None true) (RecvErr None :: events).

(** The text of the chunks among the operations. *)
Fixpoint sent_text (ops : list ChanOp) : string :=
  match ops with
  | [] => ""
  | SendResp chunk :: rest => (chunk ++ sent_text rest)%string
  | _ :: rest => sent_text rest
  end.

Fixpoint buffered_text (buf : list string) : string :=
  match buf with
  | [] => ""
  | chunk :: rest => (chunk ++ buffered_text rest)%string
  end.

End ai_service.

(** * Properties *)

Import service.

(** ** Vocabulary of the statements *)

(** The filter [id = ? AND user_id = ?]. *)
Definition owner_filter (userID conversationID : uint) (c : Conversation.t)
  : bool :=
  (Conversation.ID c =? conversationID)%N && (Conversation.UserID c =? userID)%N.

(** The filter [conversation_id = ?]. *)
Definition in_conversation (conversationID : uint) (m : Message.t) : bool :=
  (Message.ConversationID m =? conversationID)%N.

(** User [userID] owns conversation [conversationID]: a visible row says so. *)
Definition owns (d : DB) (userID conversationID : uint) : bool :=
  existsb (fun c => owner_filter userID conversationID c && visible c)
    (conversations d).

(** The next [n] statements are not failed by the store. *)
Definition healthy (env : Env) (n : nat) (s : State) : Prop :=
  forall i, (i < n)%nat -> fault_plan env (stmt_no s + i) = None.

(** The row a [Create] of a message adds to store [d] at time [now]. *)
Definition stored_message (d : DB) (now : Time) (conversationID : uint)
  (role content : string) : Message.t :=
  Message.mk (next_id (messages d)) conversationID role content now now None.

Definition with_message (m : Message.t) (d : DB) : DB :=
  mkDB (users d) (conversations d) (messages d ++ [m]).

(** The model input both chat paths assemble from store [d]. *)
Definition history_input (conversationID : uint) (d : DB)
  : list schema.Message :=
  map to_ai_message (select_ordered (in_conversation conversationID) 20 d).

(** "The most recent [n] turns, in creation-time ascending order", as the
    specification words the history. *)
Definition spec_recent_history (n : nat) (conversationID : uint) (d : DB)
  : list Message.t :=
  let all :=
    order_by Message.CreatedAt
      (filter (fun m => in_conversation conversationID m && visible m)
         (messages d)) in
  skipn (length all - n) all.

(** Rows in non-decreasing order of [key]. *)
Definition ascending {T} (key : T -> Time) (l : list T) : Prop :=
  StronglySorted (fun a b => (key a <= key b)%Z) l.

(** Rows in non-increasing order of [key]. *)
Definition descending {T} (key : T -> Time) (l : list T) : Prop :=
  StronglySorted (fun a b => (key b <= key a)%Z) l.

(** The filter [user_id = ?]. *)
Definition of_user (userID : uint) (c : Conversation.t) : bool :=
  (Conversation.UserID c =? userID)%N.

(** The rows a page holds when [total] rows match: page [page] of size
    [pageSize] starts after [(page - 1) * pageSize] rows. *)
Definition page_length (total page pageSize : Z) : Z :=
  Z.max 0 (Z.min pageSize (total - (page - 1) * pageSize)).

(** The filter [email = ? AND is_active = true]. *)
Definition by_email (email : string) (u : User.t) : bool :=
  (User.Email u =? email) && Bool.eqb (User.IsActive u) true.

(** The filter [id = ? AND is_active = true]. *)
Definition by_id_active (userID : uint) (u : User.t) : bool :=
  (User.ID u =? userID)%N && Bool.eqb (User.IsActive u) true.

(** The filter [id = ?] on users. *)
Definition by_id (userID : uint) (u : User.t) : bool :=
  (User.ID u =? userID)%N.

(** In [ops] nothing with text is sent once the chunk channel is closed. *)
Fixpoint closed_last (ops : list ai_service.ChanOp) : Prop :=
  match ops with
  | [] => True
  | ai_service.CloseResp :: rest => ai_service.sent_text rest = ""
  | _ :: rest => closed_last rest
  end.

(** The store after the two DELETE statements of DeleteConversation, issued
    at statement numbers [k] and [k + 1]. *)
Definition both_deleted (env : Env) (userID conversationID : uint) (k : nat)
  (d : DB) : DB :=
  soft_delete (clock env (S k)) (owner_filter userID conversationID)
    (soft_delete (clock env k) (in_conversation conversationID) d).

(** The first failure among the three statements issued from number [k]. *)
Definition first_fault (env : Env) (k : nat) : option error :=
  match fault_plan env k with
  | Some err => Some err
  | None =>
      match fault_plan env (S k) with
      | Some err => Some err
      | None => fault_plan env (S (S k))
      end
  end.

(** An event that lets the select loop go round again. *)
Definition quiet (callback : string -> option error) (ev : SelectEvent) : bool :=
  match ev with
  | RecvChunk chunk =>
      match callback chunk with
      | None => true
      | Some _ => false
      end
  | RecvErr None => true
  | _ => false
  end.

(** The text of the chunks among the events. *)
Fixpoint chunks_of (events : list SelectEvent) : string :=
  match events with
  | [] => ""
  | RecvChunk chunk :: rest => (chunk ++ chunks_of rest)%string
  | _ :: rest => chunks_of rest
  end.

(** What GenerateResponse returns for the next call to the model, which
    depends on the number of calls made so far and on nothing else. *)
Definition provider_reply (env : Env) (s : State) : string * option error :=
  fst (GenerateResponse env [] s).

(** ** Scenarios

    Concrete stores and environments on which the statements below are
    exercised. *)

(** A store that never fails, a clock that ticks once per statement from
    1000, stub helpers, and a remote model given by its two plans. *)
Definition steady_env (generate : option schema.Message * option error)
  (stream : list SelectEvent) : Env :=
  mkEnv (fun _ => None) (fun k => (1000 + Z.of_nat k)%Z)
    (fun _ => generate) (fun _ => stream)
    (fun password => (("hashed:" ++ password)%string, None))
    (fun _ _ _ => ("signed-token", None))
    "secret" 3600.

(** The same, except that the store fails statement number [k]. *)
Definition faulty_env (k : nat) (generate : option schema.Message * option error)
  : Env :=
  mkEnv (fun i => if Nat.eqb i k then Some (ErrStore "connection lost") else None)
    (fun k => (1000 + Z.of_nat k)%Z)
    (fun _ => generate) (fun _ => [])
    (fun password => (("hashed:" ++ password)%string, None))
    (fun _ _ _ => ("signed-token", None))
    "secret" 3600.

Definition kyoto : option schema.Message * option error :=
  (Some (schema.mkMessage schema.Assistant "Try Kyoto."), None).

Definition alice : User.t :=
  User.mk 1 "alice@example.com" "hashed:pw123456" "Alice" "" true 10 10 None.

Definition bob : User.t :=
  User.mk 2 "bob@example.com" "hashed:hunter22" "Bob" "" true 11 11 None.

Definition trip : Conversation.t :=
  Conversation.mk 1 1 "Trip planning" 20 20 None.

(** Alice owns conversation 1, which holds one question and one answer. *)
Definition trip_db : DB :=
  mkDB [alice; bob] [trip]
    [Message.mk 1 1 "user" "Any ideas for spring?" 30 30 None;
     Message.mk 2 1 "assistant" "Lisbon." 31 31 None].

Definition trip_state : State := mkState trip_db 0 [].

Definition june : string := "Where should I go in June?".

(** Twenty earlier turns of conversation 1, created at times 1 to 20. *)
Definition earlier_turns : list Message.t :=
  map (fun i =>
         Message.mk (N.of_nat i) 1
           (if Nat.even i then "assistant" else "user") "earlier turn"
           (Z.of_nat i) (Z.of_nat i) None)
    (seq 1 20).

Definition long_db : DB := mkDB [alice; bob] [trip] earlier_turns.

Definition long_state : State := mkState long_db 0 [].

Definition empty_db : DB := mkDB [] [] [].

Definition alice_req : RegisterRequest :=
  mkRegisterRequest "alice@example.com" "pw123456" "Alice".

(** The same email under another password and nickname. *)
Definition alice_again : RegisterRequest :=
  mkRegisterRequest "alice@example.com" "another-pw" "Alice B.".

(** A provider that sends one chunk and then aborts; the select receives
    the error. *)
Definition reset_stream : list SelectEvent :=
  [RecvChunk "Try "; RecvErr (Some (ErrExternal "connection reset"))].

(** The same abort, with the closing of the chunk channel received first. *)
Definition close_first_stream : list SelectEvent :=
  [RecvChunk "Try "; RespClosed;
   RecvErr (Some (ErrExternal "connection reset"))].

Definition timeout : option schema.Message * option error :=
  (None, Some (ErrExternal "timeout")).

Definition june_question : Message.t :=
  Message.mk 3 1 "user" june 1001 1001 None.

Definition kyoto_answer : Message.t :=
  Message.mk 4 1 "assistant" "Try Kyoto." 1003 1003 None.

(** The row the first registration of [alice_req] stores in [empty_db]. *)
Definition alice_row : User.t :=
  User.mk 1 "alice@example.com" "hashed:pw123456" "Alice" "" true 1001 1001
    None.

(** The password check that goes with the stub hash of [steady_env]. *)
Definition stub_check (password hashed : string) : bool :=
  hashed =? ("hashed:" ++ password)%string.

(** A token check that accepts one token, for user 1. *)
Definition stub_validate (token secret : string) : result uint :=
  if (token =? "signed-token") && (secret =? "secret") then Ok 1%N
  else Fail (ErrNew "token is malformed").

(** An authenticated request of user 1 about conversation 1, asking for
    page 0 with 500 rows a page. *)
Definition alice_request : chat_handler.Request :=
  chat_handler.mkRequest (Some 1%N) "1" (Some "0") (Some "500").

(** The same request from user 2. *)
Definition bob_request : chat_handler.Request :=
  chat_handler.mkRequest (Some 2%N) "1" (Some "0") (Some "500").

(** A provider that sends two chunks and closes. *)
Definition kyoto_stream : list SelectEvent :=
  [RecvChunk "Try "; RecvErr None; RecvChunk "Kyoto."; RespClosed].

(** A provider stream of two chunks with content, an empty one and a nil
    one in between, then the end of the stream. *)
Definition kyoto_recvs : result (list ai_service.Recv) :=
  Ok [ai_service.Got (Some (schema.mkMessage schema.Assistant "Try ")) false;
      ai_service.Got (Some (schema.mkMessage schema.Assistant "")) false;
      ai_service.Got None false;
      ai_service.Got (Some (schema.mkMessage schema.Assistant "Kyoto.")) false;
      ai_service.EOF].

(** A provider stream that breaks after one chunk. *)
Definition reset_recvs : result (list ai_service.Recv) :=
  Ok [ai_service.Got (Some (schema.mkMessage schema.Assistant "Try ")) false;
      ai_service.Broken (ErrExternal "connection reset")].

(** ** Pagination (handler) *)

Section Pagination.
Local Open Scope Z_scope.

Lemma page_floor (p : Z) : (if p <? 1 then 1 else p) = Z.max 1 p.
Proof. destruct (Z.ltb_spec p 1); lia. Qed.

Lemma page_size_reset (dflt ps : Z) :
  1 <= dflt <= 100 ->
  1 <= (if (ps <? 1) || (ps >? 100) then dflt else ps) <= 100.
Proof.
  intros Hd.
  destruct (Z.ltb_spec ps 1); simpl; [lia|].
  rewrite Z.gtb_ltb. destruct (Z.ltb_spec 100 ps); lia.
Qed.

Lemma page_size_in_range (dflt ps : Z) :
  (if (ps <? 1) || (ps >? 100) then dflt else ps)
  = (if (1 <=? ps) && (ps <=? 100) then ps else dflt).
Proof.
  rewrite Z.gtb_ltb.
  destruct (Z.ltb_spec ps 1), (Z.leb_spec 1 ps); try lia; simpl; auto.
  destruct (Z.ltb_spec 100 ps), (Z.leb_spec ps 100); try lia; auto.
Qed.

(** C3, counterexample: a request for page_size=500 gets the default page
    size of the listing, 20 for conversations and 50 for messages, not the
    upper bound 100 that clamping would give. *)
Lemma page_size_500_is_not_clamped :
  snd (handler.GetConversations_pagination None (Some "500"%string)) = 20
  /\ snd (handler.GetMessages_pagination None (Some "500"%string)) = 50
  /\ handler.spec_clamp 1 100 500 = 100
  /\ snd (handler.GetConversations_pagination None (Some "500"%string))
     <> handler.spec_clamp 1 100 500
  /\ snd (handler.GetMessages_pagination None (Some "500"%string))
     <> handler.spec_clamp 1 100 500.
Proof. vm_compute. repeat split; discriminate. Qed.

(** C3, as amended: in both listings a page below 1 becomes 1 and any other
    page is kept; a page_size inside [1,100] is kept and one outside it is
    replaced by the default of the listing (20 for conversations, 50 for
    messages), so the effective page_size always lies in [1,100]; page=0
    gives page 1 and page_size=500 gives 20, respectively 50. *)
Theorem pagination_normalised (page_q page_size_q : option string) :
  let p := fst (strconv.Atoi (DefaultQuery page_q "1")) in
  let ps20 := fst (strconv.Atoi (DefaultQuery page_size_q "20")) in
  let ps50 := fst (strconv.Atoi (DefaultQuery page_size_q "50")) in
  let conv := handler.GetConversations_pagination page_q page_size_q in
  let msgs := handler.GetMessages_pagination page_q page_size_q in
  (fst conv = Z.max 1 p /\ fst msgs = Z.max 1 p)
  /\ (1 <= snd conv <= 100 /\ 1 <= snd msgs <= 100)
  /\ snd conv = (if (1 <=? ps20) && (ps20 <=? 100) then ps20 else 20)
  /\ snd msgs = (if (1 <=? ps50) && (ps50 <=? 100) then ps50 else 50)
  /\ handler.GetConversations_pagination (Some "0"%string) (Some "500"%string)
     = (1, 20)
  /\ handler.GetMessages_pagination (Some "0"%string) (Some "500"%string)
     = (1, 50).
Proof.
  cbv zeta. unfold handler.GetConversations_pagination,
    handler.GetMessages_pagination. cbn [fst snd].
  repeat split;
    try apply page_floor; try apply page_size_in_range;
    try (apply page_size_reset; lia).
Qed.

End Pagination.

(** ** The role switch *)

Lemma role_of_known_or_user (role : string) :
  role_of role = schema.User \/ role_of role = schema.Assistant
  \/ role_of role = schema.System.
Proof.
  unfold role_of.
  destruct (role =? "user"); [auto|].
  destruct (role =? "assistant"); [auto|].
  destruct (role =? "system"); auto.
Qed.

Lemma role_of_other (role : string) :
  role <> "user" -> role <> "assistant" -> role <> "system" ->
  role_of role = schema.User.
Proof.
  intros Hu Ha Hs. unfold role_of.
  apply String.eqb_neq in Hu, Ha, Hs. rewrite Hu, Ha, Hs. reflexivity.
Qed.

(** C9: a history row whose role tag is none of "user", "assistant" and
    "system" is handed to the model with the user role (and its content
    unchanged); [to_ai_message] is the mapping both SendMessage and
    StreamChat apply to each history row. *)
Theorem unknown_role_falls_back_to_user (msg : Message.t) :
  Message.Role msg <> "user" ->
  Message.Role msg <> "assistant" ->
  Message.Role msg <> "system" ->
  to_ai_message msg = schema.mkMessage schema.User (Message.Content msg).
Proof.
  intros Hu Ha Hs. unfold to_ai_message.
  now rewrite (role_of_other _ Hu Ha Hs).
Qed.

(** Hence such a row, when it is part of the history, reaches the model as
    a user turn. *)
Lemma history_input_unknown_role conversationID d (msg : Message.t) :
  In msg (select_ordered (in_conversation conversationID) 20 d) ->
  Message.Role msg <> "user" ->
  Message.Role msg <> "assistant" ->
  Message.Role msg <> "system" ->
  In (schema.mkMessage schema.User (Message.Content msg))
    (history_input conversationID d).
Proof.
  intros Hin Hu Ha Hs. unfold history_input.
  apply in_map_iff. exists msg. split; [|exact Hin].
  unfold to_ai_message. now rewrite (role_of_other _ Hu Ha Hs).
Qed.

Lemma unknown_role_falls_back_to_user_witness :
  to_ai_message (Message.mk 7 3 "tool" "42" 10 10 None)
  = schema.mkMessage schema.User "42".
Proof.
  apply (unknown_role_falls_back_to_user
           (Message.mk 7 3 "tool" "42" 10 10 None)); discriminate.
Defined.

(** Projections of a state that has just been rebuilt by a statement. *)
Tactic Notation "advance" := cbn [db stmt_no ai_log].
Tactic Notation "advance" "in" hyp(H) := cbn [db stmt_no ai_log] in H.
Tactic Notation "advance" "in" "*" := cbn [db stmt_no ai_log] in *.

(** ** Statements against the store *)

Section Statements.
Variable env : Env.

Lemma statement_runs {A} (body : Time -> DB -> result A * DB) s :
  fault_plan env (stmt_no s) = None ->
  statement env body s
  = (fst (body (clock env (stmt_no s)) (db s)),
     mkState (snd (body (clock env (stmt_no s)) (db s))) (S (stmt_no s))
       (ai_log s)).
Proof.
  intros H. unfold statement. rewrite H.
  destruct (body (clock env (stmt_no s)) (db s)); reflexivity.
Qed.

Lemma statement_fails {A} (body : Time -> DB -> result A * DB) s err :
  fault_plan env (stmt_no s) = Some err ->
  statement env body s = (Fail err, mkState (db s) (S (stmt_no s)) (ai_log s)).
Proof. intros H. unfold statement. rewrite H. reflexivity. Qed.

Lemma no_unique_index {T} (l : list T) : existsb (fun _ => false) l = false.
Proof. induction l; auto. Qed.

(** Creating a message always succeeds when the statement runs. *)
Lemma insert_message now (value : Message.t) d :
  insert_row now value d
  = (Ok (with_pk (next_id (messages d)) (with_timestamps now value)),
     with_message (with_pk (next_id (messages d)) (with_timestamps now value)) d).
Proof.
  unfold insert_row. cbn [unique_clash table Model_Message].
  rewrite no_unique_index. reflexivity.
Qed.

Lemma not_owner_not_found d userID conversationID :
  owns d userID conversationID = false ->
  select_first (owner_filter userID conversationID) d = Fail ErrRecordNotFound.
Proof.
  unfold owns, select_first. cbn [table Model_Conversation]. intros H.
  destruct (find _ (conversations d)) as [c|] eqn:F; [|reflexivity].
  apply find_some in F. destruct F as [Hin Hc].
  assert (existsb (fun c => owner_filter userID conversationID c && visible c)
            (conversations d) = true) as E
    by (apply existsb_exists; eauto).
  congruence.
Qed.

Lemma owner_found d userID conversationID :
  owns d userID conversationID = true ->
  exists c, select_first (owner_filter userID conversationID) d = Ok c
            /\ In c (conversations d)
            /\ owner_filter userID conversationID c = true
            /\ visible c = true.
Proof.
  unfold owns, select_first. cbn [table Model_Conversation]. intros H.
  destruct (find _ (conversations d)) as [c|] eqn:F.
  - apply find_some in F. destruct F as [Hin Hc].
    apply andb_true_iff in Hc. exists c. tauto.
  - apply existsb_exists in H. destruct H as [c [Hin Hc]].
    apply (find_none _ _ F) in Hin. congruence.
Qed.

End Statements.

(** ** SendMessage on a conversation of somebody else *)

(** C6: when the user does not own the conversation, SendMessage returns no
    message and an error, which is [ErrRecordNotFound] unless the store
    failed the lookup itself (then it is that failure); the store is left
    exactly as it was, and the model is not called. *)
Theorem SendMessage_not_owner env userID conversationID req s :
  owns (db s) userID conversationID = false ->
  SendMessage env userID conversationID req s
  = ((None, None,
      Some (match fault_plan env (stmt_no s) with
            | Some err => err
            | None => ErrRecordNotFound
            end)),
     mkState (db s) (S (stmt_no s)) (ai_log s)).
Proof.
  intros Hown. apply not_owner_not_found in Hown.
  unfold SendMessage, bind, First.
  destruct (fault_plan env (stmt_no s)) as [err|] eqn:F.
  - rewrite (statement_fails env _ s err F). reflexivity.
  - rewrite (statement_runs env _ s F). cbn [fst snd].
    fold (owner_filter userID conversationID). rewrite Hown. reflexivity.
Qed.

(** ** DeleteConversation *)

Section DeleteConversation.
Variable env : Env.
Variables userID conversationID : uint.

Lemma DeleteConversation_run s :
  DeleteConversation env userID conversationID s
  = (first_fault env (stmt_no s),
     mkState
       (match first_fault env (stmt_no s) with
        | Some _ => db s
        | None => both_deleted env userID conversationID (stmt_no s) (db s)
        end)
       (match fault_plan env (stmt_no s) with
        | Some _ => 1
        | None => match fault_plan env (S (stmt_no s)) with
                  | Some _ => 2
                  | None => 3
                  end
        end + stmt_no s)
       (ai_log s)).
Proof.
  destruct s as [d k log].
  unfold DeleteConversation, bind, Begin, Delete, Rollback, Commit, statement,
    first_fault, both_deleted, ret.
  advance.
  destruct (fault_plan env k); advance; [reflexivity|].
  destruct (fault_plan env (S k)); advance; [reflexivity|].
  destruct (fault_plan env (S (S k))); reflexivity.
Qed.

Lemma soft_delete_hides {T} `{Model T} (w : T -> bool) (l : list T)
  (hide : T -> T) :
  (forall r, w r && visible r = true ->
             w (hide r) && visible (hide r) = false) ->
  filter (fun r => w r && visible r)
    (map (fun r => if w r && visible r then hide r else r) l) = [].
Proof.
  intros Hh. induction l as [|r l IH]; [reflexivity|].
  cbn [map filter].
  destruct (w r && visible r) eqn:E.
  - rewrite (Hh r E). exact IH.
  - rewrite E. exact IH.
Qed.

Lemma filter_nil_existsb {T} (p : T -> bool) (l : list T) :
  filter p l = [] -> existsb p l = false.
Proof.
  induction l as [|r l IH]; [reflexivity|]. cbn [filter existsb].
  destruct (p r); [discriminate|]. exact IH.
Qed.

Lemma both_deleted_no_messages k d :
  filter (fun m => in_conversation conversationID m && visible m)
    (messages (both_deleted env userID conversationID k d)) = [].
Proof.
  unfold both_deleted, soft_delete. cbn [table with_table messages
    Model_Message Model_Conversation].
  apply soft_delete_hides. intros r _. cbn. apply andb_false_r.
Qed.

Lemma both_deleted_not_owned k d :
  owns (both_deleted env userID conversationID k d) userID conversationID = false.
Proof.
  unfold owns, both_deleted, soft_delete. cbn [table with_table conversations
    Model_Message Model_Conversation].
  apply filter_nil_existsb.
  apply (soft_delete_hides (owner_filter userID conversationID)).
  intros r _. cbn. apply andb_false_r.
Qed.

End DeleteConversation.

(** C5: DeleteConversation is all or nothing.  It returns the first failure
    among its three statements (delete messages, delete conversation,
    commit).  When there is none, the store is the one in which both
    deletions took effect: no message of the conversation is visible any
    more and the user owns no such conversation any more.  When there is
    one, whichever statement it hits, the store is exactly the one before
    the call. *)
Theorem DeleteConversation_atomic env userID conversationID s :
  let r := DeleteConversation env userID conversationID s in
  fst r = first_fault env (stmt_no s)
  /\ match fst r with
     | None =>
         db (snd r) = both_deleted env userID conversationID (stmt_no s) (db s)
         /\ filter (fun m => in_conversation conversationID m && visible m)
              (messages (db (snd r))) = []
         /\ owns (db (snd r)) userID conversationID = false
     | Some _ => db (snd r) = db s
     end.
Proof.
  cbv zeta. rewrite DeleteConversation_run. cbn [fst snd db].
  split; [reflexivity|].
  destruct (first_fault env (stmt_no s)); [reflexivity|].
  split; [reflexivity|]. split.
  - apply both_deleted_no_messages.
  - apply both_deleted_not_owned.
Qed.

(** With a store that fails none of the three statements the deletion goes
    through. *)
Lemma DeleteConversation_succeeds env userID conversationID s :
  healthy env 3 s ->
  fst (DeleteConversation env userID conversationID s) = None.
Proof.
  intros H. rewrite DeleteConversation_run. cbn [fst]. unfold first_fault.
  pose proof (H 0%nat) as H0. pose proof (H 1%nat) as H1.
  pose proof (H 2%nat) as H2.
  rewrite Nat.add_0_r in H0. rewrite Nat.add_1_r in H1.
  replace (stmt_no s + 2)%nat with (S (S (stmt_no s))) in H2 by lia.
  rewrite H0, H1, H2 by lia. reflexivity.
Qed.

(** ** A chat turn: the part SendMessage and StreamChat share *)

Section ChatTurn.
Variable env : Env.
Variables userID conversationID : uint.

Lemma stream_loop_error callback pre err post acc :
  forallb (quiet callback) pre = true ->
  stream_loop callback (pre ++ RecvErr (Some err) :: post) acc = ReturnErr err.
Proof.
  revert acc. induction pre as [|ev pre IH]; intros acc H; [reflexivity|].
  cbn [forallb] in H. apply andb_true_iff in H. destruct H as [Hq Hpre].
  destruct ev as [chunk| |[e|]]; cbn in Hq; try discriminate; cbn.
  - destruct (callback chunk); [discriminate|]. apply IH, Hpre.
  - apply IH, Hpre.
Qed.

Lemma append_assoc (a b c : string) :
  ((a ++ b) ++ c = a ++ (b ++ c))%string.
Proof. induction a; cbn; congruence. Qed.

Lemma stream_loop_closed callback pre post acc :
  forallb (quiet callback) pre = true ->
  stream_loop callback (pre ++ RespClosed :: post) acc
  = StreamEnd (acc ++ chunks_of pre)%string.
Proof.
  revert acc. induction pre as [|ev pre IH]; intros acc H.
  - cbn. f_equal. induction acc; cbn; congruence.
  - cbn [forallb] in H. apply andb_true_iff in H. destruct H as [Hq Hpre].
    destruct ev as [chunk| |[e|]]; cbn in Hq; try discriminate; cbn.
    + destruct (callback chunk); [discriminate|].
      rewrite IH by exact Hpre. now rewrite append_assoc.
    + apply IH, Hpre.
Qed.

Lemma GenerateResponse_run input s :
  GenerateResponse env input s
  = (provider_reply env s,
     mkState (db s) (stmt_no s) (ai_log s ++ [input])).
Proof.
  unfold provider_reply, GenerateResponse, bind, model_Generate, ret.
  destruct (generate_plan env (length (ai_log s))) as [[resp|] [err|]];
    try reflexivity.
  cbn. destruct (schema.Content resp =? ""); reflexivity.
Qed.

Lemma provider_reply_log d d' k k' log :
  provider_reply env (mkState d k log) = provider_reply env (mkState d' k' log).
Proof.
  unfold provider_reply, GenerateResponse, bind, model_Generate, ret.
  cbn [ai_log].
  destruct (generate_plan env (length log)) as [[resp|] [err|]];
    try reflexivity.
  destruct (schema.Content resp =? ""); reflexivity.
Qed.

Lemma healthy3 d k log :
  healthy env 3 (mkState d k log) ->
  fault_plan env k = None /\ fault_plan env (S k) = None
  /\ fault_plan env (S (S k)) = None.
Proof.
  intros H. unfold healthy in H. cbn [stmt_no] in H.
  pose proof (H 0%nat) as H0. pose proof (H 1%nat) as H1.
  pose proof (H 2%nat) as H2.
  rewrite Nat.add_0_r in H0. rewrite Nat.add_1_r in H1.
  replace (k + 2)%nat with (S (S k)) in H2 by lia.
  repeat split; auto.
Qed.

(** A streaming turn on a conversation the user owns, whose first three
    statements the store executes, and in which the select loop receives a
    non-nil error from the error channel before it receives the close of
    the chunk channel (after any number of chunks the callback accepted).
    StreamChat returns that very error together with the user message; the
    store is the one before the call plus the user message and nothing
    else, so no assistant row exists; the model was asked once, with the
    history.  Whether the select receives the error before the close is
    not in the hands of StreamChat. *)
Theorem StreamChat_provider_error content callback s pre err post :
  owns (db s) userID conversationID = true ->
  healthy env 3 s ->
  stream_plan env (length (ai_log s)) = pre ++ RecvErr (Some err) :: post ->
  forallb (quiet callback) pre = true ->
  let um := stored_message (db s) (clock env (S (stmt_no s))) conversationID
              "user" content in
  StreamChat env userID conversationID content callback s
  = (Some (Some um, Some err),
     mkState (with_message um (db s)) (3 + stmt_no s)
       (ai_log s ++ [history_input conversationID (with_message um (db s))])).
Proof.
  intros Hown Hh Hplan Hq um.
  destruct (owner_found _ _ _ Hown) as [c [Hc _]].
  destruct s as [d k log]. advance in *.
  destruct (healthy3 _ _ _ Hh) as [F0 [F1 F2]].
  unfold StreamChat, bind, First, Create, Find_Order_Limit, statement,
    StreamResponse, ret.
  advance. rewrite F0.
  fold (owner_filter userID conversationID). rewrite Hc.
  advance. rewrite F1. rewrite insert_message.
  advance. rewrite F2.
  advance. rewrite Hplan.
  rewrite (stream_loop_error callback pre err post "" Hq).
  reflexivity.
Qed.

(** C10: a non-streaming turn on a conversation the user owns, whose first
    three statements the store executes, and in which GenerateResponse
    reports an error (the call to the model failed, or it gave no or empty
    content).  SendMessage returns the user message, no assistant message
    and that error; the store is the one before the call plus the user
    message: the user message is not rolled back and no assistant row is
    created. *)
Theorem SendMessage_provider_failure req s err :
  owns (db s) userID conversationID = true ->
  healthy env 3 s ->
  snd (provider_reply env s) = Some err ->
  let um := stored_message (db s) (clock env (S (stmt_no s))) conversationID
              "user" (Content req) in
  SendMessage env userID conversationID req s
  = ((Some um, None, Some err),
     mkState (with_message um (db s)) (3 + stmt_no s)
       (ai_log s ++ [history_input conversationID (with_message um (db s))])).
Proof.
  intros Hown Hh Hgen um.
  destruct (owner_found _ _ _ Hown) as [c [Hc _]].
  destruct s as [d k log]. advance in *.
  destruct (healthy3 _ _ _ Hh) as [F0 [F1 F2]].
  unfold SendMessage, bind, First, Create, Find_Order_Limit, statement, ret.
  advance. rewrite F0.
  fold (owner_filter userID conversationID). rewrite Hc.
  advance. rewrite F1. rewrite insert_message.
  advance. rewrite F2.
  rewrite GenerateResponse_run. advance.
  rewrite (provider_reply_log _ d _ k log).
  destruct (provider_reply env (mkState d k log)) as [text e].
  cbn [snd] in Hgen. subst e. reflexivity.
Qed.

Lemma find_map_stable {T} (p : T -> bool) (f : T -> T) (l : list T) :
  (forall x, p (f x) = p x) ->
  find p (map f l) = option_map f (find p l).
Proof.
  intros Hp. induction l as [|x l IH]; [reflexivity|].
  cbn [map find]. rewrite Hp. destruct (p x); [reflexivity|exact IH].
Qed.

Lemma updated_conversation_found (c : Conversation.t) v d :
  select_first (owner_filter userID conversationID) d = Ok c ->
  exists c',
    select_first (owner_filter userID conversationID) (set_updated_at c v d)
      = Ok c'
    /\ Conversation.UpdatedAt c' = v.
Proof.
  unfold select_first, set_updated_at.
  cbn [table with_table conversations Model_Conversation].
  intros H.
  destruct (find _ (conversations d)) as [c0|] eqn:F; [|discriminate].
  injection H as ->. rewrite find_map_stable.
  - rewrite F. cbn [option_map]. eexists. split; [reflexivity|].
    apply find_some in F. destruct F as [_ Hc].
    apply andb_true_iff in Hc. destruct Hc as [_ Hv].
    rewrite N.eqb_refl, Hv. reflexivity.
  - intros x.
    destruct ((Conversation.ID x =? Conversation.ID c)%N && visible x);
      reflexivity.
Qed.

(** After a SendMessage that returned both messages and no error, and
    whose closing timestamp update the store executed (SendMessage does not
    look at the outcome of that statement), the user message has role
    "user" and the content of the request, the assistant message has role
    "assistant", the two are the rows the call appended to the messages
    table, and the conversation row the user owns carries as its
    [UpdatedAt] the [CreatedAt] of the assistant message. *)
Theorem SendMessage_success req s um am s' :
  SendMessage env userID conversationID req s = ((Some um, Some am, None), s') ->
  fault_plan env (stmt_no s + 4) = None ->
  (Message.Role um = "user" /\ Message.Content um = Content req)
  /\ Message.Role am = "assistant"
  /\ messages (db s') = messages (db s) ++ [um; am]
  /\ exists c,
       select_first (owner_filter userID conversationID) (db s') = Ok c
       /\ Conversation.UpdatedAt c = Message.CreatedAt am.
Proof.
  destruct s as [d k log]. advance.
  replace (k + 4)%nat with (S (S (S (S k)))) by lia.
  unfold SendMessage, bind, First, Create, Find_Order_Limit, Update_updated_at,
    statement, ret.
  advance.
  destruct (fault_plan env k); [discriminate|].
  fold (owner_filter userID conversationID).
  destruct (select_first (owner_filter userID conversationID) d)
    as [c|] eqn:Hc; [|discriminate].
  advance.
  destruct (fault_plan env (S k)); [discriminate|].
  rewrite insert_message. advance.
  destruct (fault_plan env (S (S k))); [discriminate|].
  rewrite GenerateResponse_run. advance.
  destruct (provider_reply _ _) as [text [e|]]; [discriminate|].
  advance.
  destruct (fault_plan env (S (S (S k)))); [discriminate|].
  rewrite insert_message. advance.
  intros H F4. rewrite F4 in H. advance in H.
  injection H as <- <- <-.
  cbn [db]. repeat split.
  - unfold set_updated_at, with_message.
    cbn [with_table messages Model_Conversation].
    rewrite <- app_assoc. reflexivity.
  - apply updated_conversation_found. exact Hc.
Qed.

(** A streaming turn that ends normally: the chunk channel is closed after
    chunks the callback accepted.  The concatenation of the chunks is
    stored as the assistant message, the conversation's timestamp becomes
    the creation time of that message, and the user message is returned
    without an error. *)
Lemma StreamChat_completed content callback s pre post :
  owns (db s) userID conversationID = true ->
  healthy env 5 s ->
  stream_plan env (length (ai_log s)) = pre ++ RespClosed :: post ->
  forallb (quiet callback) pre = true ->
  let um := stored_message (db s) (clock env (S (stmt_no s))) conversationID
              "user" content in
  let am := stored_message (with_message um (db s))
              (clock env (3 + stmt_no s)) conversationID "assistant"
              (chunks_of pre) in
  let r := StreamChat env userID conversationID content callback s in
  fst r = Some (Some um, None)
  /\ messages (db (snd r)) = messages (db s) ++ [um; am]
  /\ exists c,
       select_first (owner_filter userID conversationID) (db (snd r)) = Ok c
       /\ Conversation.UpdatedAt c = Message.CreatedAt am.
Proof.
  intros Hown Hh Hplan Hq um am.
  destruct (owner_found _ _ _ Hown) as [c [Hc _]].
  destruct s as [d k log]. advance in *.
  assert (healthy env 3 (mkState d k log)) as Hh3
    by (intros i Hi; apply Hh; lia).
  destruct (healthy3 _ _ _ Hh3) as [F0 [F1 F2]].
  pose proof (Hh 3%nat) as F3. pose proof (Hh 4%nat) as F4.
  cbn [stmt_no] in F3, F4.
  replace (k + 3)%nat with (S (S (S k))) in F3 by lia.
  replace (k + 4)%nat with (S (S (S (S k)))) in F4 by lia.
  unfold StreamChat, bind, First, Create, Find_Order_Limit, Update_updated_at,
    statement, StreamResponse, ret.
  advance. rewrite F0.
  fold (owner_filter userID conversationID). rewrite Hc.
  advance. rewrite F1. rewrite insert_message.
  advance. rewrite F2.
  advance. rewrite Hplan.
  rewrite (stream_loop_closed callback pre post "" Hq).
  advance. rewrite F3 by lia. rewrite insert_message.
  advance. rewrite F4 by lia.
  cbn [fst snd db]. split; [reflexivity|]. split.
  - unfold set_updated_at, with_message.
    cbn [with_table messages Model_Conversation].
    rewrite <- app_assoc. reflexivity.
  - apply updated_conversation_found. exact Hc.
Qed.

End ChatTurn.

(** ** Register *)

Section Register.
Variable env : Env.

Lemma find_last_matches {T} (p : T -> bool) (l : list T) (x : T) :
  p x = true -> exists y, find p (l ++ [x]) = Some y.
Proof.
  intros Hx. induction l as [|a l IH]; cbn.
  - rewrite Hx. eauto.
  - destruct (p a); eauto.
Qed.

(** What a successful Register did to the store: one row was appended to the
    users table, it is the returned user, it carries the requested email and
    it is visible. *)
Lemma Register_success req s resp s1 :
  Register env req s = ((Some resp, None), s1) ->
  db s1 = mkDB (users (db s) ++ [User resp]) (conversations (db s))
            (messages (db s))
  /\ User.Email (User resp) = req_Email req
  /\ User.DeletedAt (User resp) = None.
Proof.
  destruct s as [d k log].
  unfold Register, bind, First, Create, statement, ret.
  advance.
  destruct (fault_plan env k); advance;
    [|destruct (select_first _ d); [discriminate|]];
    (destruct (HashPassword env (req_Password req)) as [h [e1|]];
       [discriminate|];
     advance;
     destruct (fault_plan env (S k)); advance;
       [discriminate|];
     unfold insert_row; cbn [table with_table users Model_User];
     destruct (existsb _ (users d)); advance;
       [discriminate|];
     destruct (GenerateJWT env _ _ _) as [token [e2|]]; [discriminate|];
     intros H; injection H as <- <-; cbn; auto).
Qed.

(** C7: after a Register that succeeded, a second Register with the same
    email, whose lookup the store executes, returns no response and the
    error "email already exists", and leaves the store as the first call
    left it: the users table is the one before the first call plus the one
    row of the first registration. *)
Theorem Register_same_email_twice req1 req2 s resp s1 :
  Register env req1 s = ((Some resp, None), s1) ->
  req_Email req2 = req_Email req1 ->
  fault_plan env (stmt_no s1) = None ->
  Register env req2 s1
  = ((None, Some (ErrNew "email already exists")),
     mkState (db s1) (S (stmt_no s1)) (ai_log s1))
  /\ users (db s1) = users (db s) ++ [User resp].
Proof.
  intros H1 He F.
  destruct (Register_success _ _ _ _ H1) as [Hdb [Hmail Hvis]].
  split; [|rewrite Hdb; reflexivity].
  unfold Register, bind, First. rewrite (statement_runs env _ s1 F).
  cbn [fst snd]. unfold select_first.
  cbn [table Model_User]. rewrite Hdb. cbn [users].
  destruct (find_last_matches
              (fun r : User.t => (User.Email r =? req_Email req2) && visible r)
              (users (db s)) (User resp)) as [y Hy].
  { rewrite Hmail, He, String.eqb_refl. unfold visible. cbn.
    rewrite Hvis. reflexivity. }
  rewrite Hy. reflexivity.
Qed.

End Register.

(** Whatever the store does during the second call, a second Register with
    an email that a successful Register has just stored adds no row. *)
Lemma Register_twice_no_second_row env req1 req2 s resp s1 :
  Register env req1 s = ((Some resp, None), s1) ->
  req_Email req2 = req_Email req1 ->
  fst (fst (Register env req2 s1)) = None
  /\ db (snd (Register env req2 s1)) = db s1.
Proof.
  intros H1 He.
  destruct (Register_success _ _ _ _ _ H1) as [Hdb [Hmail Hvis]].
  destruct s1 as [d1 k1 log1]. cbn [db] in *.
  unfold Register, bind, First, Create, statement, ret.
  advance.
  assert (existsb
            (unique_clash
               (with_pk (next_id (users d1))
                  (with_timestamps (clock env (S k1))
                     (User.mk 0 (req_Email req2)
                        (fst (HashPassword env (req_Password req2)))
                        (req_Nickname req2) "" true 0 0 None))))
            (users d1) = true) as Clash.
  { rewrite Hdb. cbn [users]. rewrite existsb_app. cbn.
    rewrite He, <- Hmail, String.eqb_refl. rewrite orb_true_r.
    reflexivity. }
  destruct (fault_plan env k1); advance;
    [|destruct (select_first _ d1); [split; reflexivity|]];
    (destruct (HashPassword env (req_Password req2)) as [h [e1|]];
       [split; reflexivity|];
     advance;
     destruct (fault_plan env (S k1)); advance;
       [split; reflexivity|];
     unfold insert_row; cbn [table with_table users Model_User];
     cbn [fst] in Clash; rewrite Clash; split; reflexivity).
Qed.

(** ** The statements on the scenarios *)

Example Atoi_500 : strconv.Atoi "500" = (500%Z, None).
Proof. reflexivity. Qed.

Example Atoi_negative : strconv.Atoi "-7" = ((-7)%Z, None).
Proof. reflexivity. Qed.

Example Atoi_not_a_number : strconv.Atoi "12a" = (0%Z, Some ErrSyntax).
Proof. reflexivity. Qed.

Example Atoi_out_of_range :
  strconv.Atoi "99999999999999999999" = (strconv.maxInt, Some ErrRange).
Proof. reflexivity. Qed.

(** The range error comes at the digit that overflows; what follows that
    digit is not read. *)
Example Atoi_out_of_range_first :
  strconv.Atoi "99999999999999999999x" = (strconv.maxInt, Some ErrRange).
Proof. reflexivity. Qed.

Lemma steady_env_healthy generate stream n s :
  healthy (steady_env generate stream) n s.
Proof. intros i _. reflexivity. Qed.

Lemma StreamChat_provider_error_witness :
  owns trip_db 1 1 = true
  /\ StreamChat (steady_env kyoto reset_stream) 1 1 june (fun _ => None)
       trip_state
     = (Some (Some june_question, Some (ErrExternal "connection reset")),
        mkState (with_message june_question trip_db) 3
          [history_input 1 (with_message june_question trip_db)]).
Proof.
  split; [reflexivity|].
  exact (StreamChat_provider_error (steady_env kyoto reset_stream) 1 1 june
           (fun _ => None) trip_state
           [RecvChunk "Try "] (ErrExternal "connection reset") []
           eq_refl (steady_env_healthy kyoto reset_stream 3 trip_state)
           eq_refl eq_refl).
Defined.

Lemma SendMessage_not_owner_witness :
  owns trip_db 2 1 = false
  /\ SendMessage (steady_env kyoto []) 2 1 (mkSendMessageRequest june)
       trip_state
     = ((None, None, Some ErrRecordNotFound), mkState trip_db 1 []).
Proof.
  split; [reflexivity|].
  exact (SendMessage_not_owner (steady_env kyoto []) 2 1
           (mkSendMessageRequest june) trip_state eq_refl).
Defined.

Lemma SendMessage_provider_failure_witness :
  SendMessage (steady_env timeout []) 1 1 (mkSendMessageRequest june)
    trip_state
  = ((Some june_question, None,
      Some (ErrWrap "failed to generate response" (ErrExternal "timeout"))),
     mkState (with_message june_question trip_db) 3
       [history_input 1 (with_message june_question trip_db)]).
Proof.
  exact (SendMessage_provider_failure (steady_env timeout []) 1 1
           (mkSendMessageRequest june) trip_state
           (ErrWrap "failed to generate response" (ErrExternal "timeout"))
           eq_refl (steady_env_healthy timeout [] 3 trip_state) eq_refl).
Defined.

(** Empty content from the model counts as a failure of the call too. *)
Example SendMessage_empty_reply :
  SendMessage
    (steady_env (Some (schema.mkMessage schema.Assistant ""), None) [])
    1 1 (mkSendMessageRequest june) trip_state
  = ((Some june_question, None, Some (ErrNew "no response generated")),
     mkState (with_message june_question trip_db) 3
       [history_input 1 (with_message june_question trip_db)]).
Proof. reflexivity. Qed.

Lemma SendMessage_success_witness :
  (Message.Role june_question = "user"
   /\ Message.Content june_question = june)
  /\ Message.Role kyoto_answer = "assistant"
  /\ messages
       (db (snd (SendMessage (steady_env kyoto []) 1 1
                   (mkSendMessageRequest june) trip_state)))
     = messages trip_db ++ [june_question; kyoto_answer]
  /\ exists c,
       select_first (owner_filter 1 1)
         (db (snd (SendMessage (steady_env kyoto []) 1 1
                     (mkSendMessageRequest june) trip_state))) = Ok c
       /\ Conversation.UpdatedAt c = Message.CreatedAt kyoto_answer.
Proof.
  exact (SendMessage_success (steady_env kyoto []) 1 1
           (mkSendMessageRequest june) trip_state june_question kyoto_answer
           (snd (SendMessage (steady_env kyoto []) 1 1
                   (mkSendMessageRequest june) trip_state))
           eq_refl eq_refl).
Defined.

(** C8, at a turn whose closing timestamp update the store fails: the
    first four statements run, the model answers, and the fifth statement,
    the update of the conversation's [updated_at], fails.  SendMessage does
    not look at the outcome of that statement: it returns both messages and
    no error, the assistant message created at time 1003 is stored, and the
    conversation still carries the [UpdatedAt] it had before the call,
    20. *)
Theorem SendMessage_timestamp_update_unchecked :
  let r := SendMessage (faulty_env 4 kyoto) 1 1 (mkSendMessageRequest june)
             trip_state in
  fst r = (Some june_question, Some kyoto_answer, None)
  /\ messages (db (snd r)) = messages trip_db ++ [june_question; kyoto_answer]
  /\ select_first (owner_filter 1 1) (db (snd r)) = Ok trip
  /\ Conversation.UpdatedAt trip = 20%Z
  /\ Message.CreatedAt kyoto_answer = 1003%Z.
Proof. repeat split. Qed.

Lemma Register_same_email_twice_witness :
  let env := steady_env kyoto [] in
  let first := Register env alice_req (mkState empty_db 0 []) in
  fst first = (Some (mkLoginResponse "signed-token" alice_row), None)
  /\ Register env alice_again (snd first)
     = ((None, Some (ErrNew "email already exists")),
        mkState (db (snd first)) (S (stmt_no (snd first)))
          (ai_log (snd first)))
  /\ users (db (snd first)) = users empty_db ++ [alice_row].
Proof.
  split; [reflexivity|].
  exact (Register_same_email_twice (steady_env kyoto []) alice_req alice_again
           (mkState empty_db 0 [])
           (mkLoginResponse "signed-token" alice_row)
           (snd (Register (steady_env kyoto []) alice_req
                   (mkState empty_db 0 [])))
           eq_refl eq_refl eq_refl).
Defined.

(** ** DeleteConversation by a user who does not own the conversation *)

(** C2, on the code: Bob (user 2) asks for the deletion of conversation 1,
    which is Alice's.  The store fails nothing.  DeleteConversation returns
    no error, the conversation row is untouched, and both messages of
    Alice's conversation are now deleted: the DELETE on messages filters on
    the conversation only, and the DELETE on conversations, which does
    filter on the user, matches no row without that being an error. *)
Theorem DeleteConversation_of_another_user :
  let r := DeleteConversation (steady_env kyoto []) 2 1 trip_state in
  owns trip_db 2 1 = false
  /\ fst r = None
  /\ conversations (db (snd r)) = conversations trip_db
  /\ messages (db (snd r))
     = map (with_deleted_at (Some 1000%Z)) (messages trip_db)
  /\ messages (db (snd r)) <> messages trip_db
  /\ filter (fun m => in_conversation 1 m && visible m) (messages (db (snd r)))
     = [].
Proof.
  cbv zeta. repeat split; try reflexivity. vm_compute. discriminate.
Qed.

(** The same holds in general: with a store that fails nothing, a caller
    who does not own the conversation gets no error, the conversations
    table is unchanged and every visible message of the conversation is
    deleted. *)
Lemma DeleteConversation_not_owner env userID conversationID s :
  healthy env 3 s ->
  owns (db s) userID conversationID = false ->
  let r := DeleteConversation env userID conversationID s in
  fst r = None
  /\ conversations (db (snd r)) = conversations (db s)
  /\ messages (db (snd r))
     = map (fun m =>
              if in_conversation conversationID m && visible m
              then with_deleted_at (Some (clock env (stmt_no s))) m else m)
         (messages (db s)).
Proof.
  intros Hh Hown. cbv zeta.
  pose proof (DeleteConversation_succeeds env userID conversationID s Hh) as E.
  rewrite DeleteConversation_run in *. cbn [fst snd db] in *.
  rewrite E. split; [reflexivity|].
  unfold both_deleted, soft_delete.
  cbn [table with_table conversations messages Model_Message
         Model_Conversation].
  split; [|reflexivity].
  unfold owns in Hown.
  induction (conversations (db s)) as [|c l IH]; [reflexivity|].
  cbn [existsb] in Hown. apply orb_false_iff in Hown.
  destruct Hown as [Hc Hl]. cbn [map]. rewrite Hc, (IH Hl). reflexivity.
Qed.

(** ** The history given to the model *)

(** C4, on the code: conversation 1 holds 20 earlier turns when Alice
    sends her question, so it holds 21 once the question is stored.  Both
    SendMessage and StreamChat give the model the 20 earliest turns, that
    is all the earlier turns and not the question just asked, whereas the
    20 most recent turns are the earlier turns but the first, followed by
    the question. *)
Theorem history_is_the_oldest_twenty :
  let req := mkSendMessageRequest june in
  let asked := stored_message long_db 1001 1 "user" june in
  let sent := SendMessage (steady_env kyoto []) 1 1 req long_state in
  let streamed :=
    StreamChat (steady_env kyoto [RecvChunk "Try Kyoto."; RespClosed]) 1 1
      june (fun _ => None) long_state in
  length (filter (fun m => in_conversation 1 m && visible m)
            (messages (with_message asked long_db))) = 21%nat
  /\ ai_log (snd sent) = [map to_ai_message earlier_turns]
  /\ ai_log (snd streamed) = [map to_ai_message earlier_turns]
  /\ fst (fst sent) = (Some asked, Some (Message.mk 22 1 "assistant"
                                          "Try Kyoto." 1003 1003 None))
  /\ map to_ai_message (spec_recent_history 20 1 (with_message asked long_db))
     = map to_ai_message (tl earlier_turns)
       ++ [schema.mkMessage schema.User june]
  /\ map to_ai_message earlier_turns
     <> map to_ai_message
          (spec_recent_history 20 1 (with_message asked long_db)).
Proof.
  cbv zeta. repeat split; try (vm_compute; reflexivity).
  vm_compute. discriminate.
Qed.

(** * Further properties of the services, the handlers and the middleware *)

(** ** Sorting, windows and fresh keys *)


Section Lists.
Context {T : Type}.

Lemma firstn_In n (l : list T) y : In y (firstn n l) -> In y l.
Proof.
  revert n. induction l as [|a l IH]; intros [|n]; cbn; try tauto.
  intros [->|H]; eauto.
Qed.

Lemma skipn_In n (l : list T) y : In y (skipn n l) -> In y l.
Proof.
  revert n. induction l as [|a l IH]; intros [|n]; cbn; try tauto.
  intros H; eauto.
Qed.

Lemma window_In offset limit (l : list T) y :
  In y (window offset limit l) -> In y l.
Proof.
  unfold window. intros H.
  assert (In y (if (0 <? offset)%Z then skipn (Z.to_nat offset) l else l)) as H'.
  { destruct (0 <=? limit)%Z; [|exact H]. eapply firstn_In; eauto. }
  destruct (0 <? offset)%Z; [|exact H']. eapply skipn_In; eauto.
Qed.

Lemma window_length offset limit (l : list T) :
  (0 <= limit)%Z -> (Z.of_nat (length (window offset limit l)) <= limit)%Z.
Proof.
  intros H. unfold window.
  destruct (Z.leb_spec 0 limit); [|lia].
  rewrite length_firstn. lia.
Qed.

Lemma window_first_page limit (l : list T) :
  (Z.of_nat (length l) <= limit)%Z -> window 0 limit l = l.
Proof.
  intros H. unfold window. cbn.
  destruct (Z.leb_spec 0 limit); [|lia].
  apply firstn_all2. lia.
Qed.

Variable key : T -> Time.

Lemma insert_by_In x y l : In y (insert_by key x l) <-> y = x \/ In y l.
Proof.
  induction l as [|a l IH]; cbn.
  - intuition.
  - destruct (key x <=? key a)%Z; cbn; [intuition|].
    rewrite IH. intuition.
Qed.

Lemma order_by_In y l : In y (order_by key l) <-> In y l.
Proof.
  induction l as [|a l IH]; cbn; [tauto|].
  rewrite insert_by_In, IH. intuition.
Qed.

Lemma insert_by_length x l : length (insert_by key x l) = S (length l).
Proof.
  induction l as [|a l IH]; cbn [insert_by]; [reflexivity|].
  destruct (key x <=? key a)%Z; cbn [length]; [reflexivity|].
  now rewrite IH.
Qed.

Lemma order_by_length l : length (order_by key l) = length l.
Proof.
  induction l as [|a l IH]; [reflexivity|].
  unfold order_by in *. cbn [fold_right length].
  now rewrite insert_by_length, IH.
Qed.

Lemma insert_by_ascending x l :
  ascending key l -> ascending key (insert_by key x l).
Proof.
  unfold ascending. induction 1 as [|a l Hl IH Ha]; cbn.
  - repeat constructor.
  - destruct (Z.leb_spec (key x) (key a)).
    + constructor; [constructor; assumption|].
      constructor; [assumption|].
      rewrite Forall_forall in *. intros b Hb. specialize (Ha b Hb). lia.
    + constructor; [exact IH|].
      rewrite Forall_forall in *. intros b Hb.
      apply insert_by_In in Hb. destruct Hb as [->|Hb]; [lia|auto].
Qed.

Lemma order_by_ascending l : ascending key (order_by key l).
Proof.
  induction l as [|a l IH]; cbn; [constructor|].
  apply insert_by_ascending, IH.
Qed.

Lemma ascending_firstn n l : ascending key l -> ascending key (firstn n l).
Proof.
  unfold ascending. intros H. revert n.
  induction H as [|a l Hl IH Ha]; intros [|n]; cbn; try constructor.
  - apply IH.
  - rewrite Forall_forall in *. intros b Hb. apply Ha.
    eapply firstn_In; eauto.
Qed.

Lemma ascending_skipn n l : ascending key l -> ascending key (skipn n l).
Proof.
  unfold ascending. intros H. revert n.
  induction H as [|a l Hl IH Ha]; intros [|n]; cbn; try constructor; auto.
Qed.

Lemma window_ascending offset limit l :
  ascending key l -> ascending key (window offset limit l).
Proof.
  intros H. unfold window.
  destruct (0 <=? limit)%Z, (0 <? offset)%Z;
    auto using ascending_firstn, ascending_skipn.
Qed.

End Lists.

Lemma next_id_above {T} `{Model T} (rows : list T) r :
  In r rows -> (pk r < next_id rows)%N.
Proof.
  unfold next_id. induction rows as [|a rows IH]; cbn; [tauto|].
  intros [->|Hin]; [lia|]. specialize (IH Hin). lia.
Qed.

Lemma wrap_int_small z : (- 2 ^ 63 <= z < 2 ^ 63)%Z -> wrap_int z = z.
Proof.
  intros H. unfold wrap_int. rewrite Z.mod_small; lia.
Qed.

Lemma page_offset page pageSize :
  (1 <= page)%Z -> (1 <= pageSize)%Z -> ((page - 1) * pageSize < 2 ^ 63)%Z ->
  wrap_int (wrap_int (page - 1) * pageSize) = ((page - 1) * pageSize)%Z.
Proof.
  intros Hp Hs Hb.
  assert (0 <= page - 1 <= (page - 1) * pageSize)%Z by nia.
  rewrite (wrap_int_small (page - 1)) by lia.
  apply wrap_int_small. lia.
Qed.

Lemma window_page_length {T} (l : list T) page pageSize :
  (1 <= page)%Z -> (1 <= pageSize)%Z ->
  Z.of_nat (length (window ((page - 1) * pageSize) pageSize l))
  = page_length (Z.of_nat (length l)) page pageSize.
Proof.
  intros Hp Hs. unfold window, page_length.
  assert (0 <= (page - 1) * pageSize)%Z by nia.
  destruct (Z.leb_spec 0 pageSize); [|lia].
  destruct (Z.ltb_spec 0 ((page - 1) * pageSize)).
  - rewrite length_firstn, length_skipn. lia.
  - rewrite length_firstn.
    replace ((page - 1) * pageSize)%Z with 0%Z by lia. lia.
Qed.

Lemma ascending_negated {T} (key : T -> Time) (l : list T) :
  ascending (fun r => (- key r)%Z) l -> descending key l.
Proof.
  unfold ascending, descending. induction 1 as [|a l Hl IH Ha]; constructor.
  - exact IH.
  - rewrite Forall_forall in *. intros b Hb. specialize (Ha b Hb).
    cbn in Ha. lia.
Qed.

Lemma select_page_In {T} `{Model T} (w : T -> bool) key offset limit d r :
  In r (select_page w key offset limit d) ->
  In r (table d) /\ w r = true /\ visible r = true.
Proof.
  unfold select_page. intros Hin.
  apply window_In in Hin. apply order_by_In in Hin.
  apply filter_In in Hin. destruct Hin as [Hin Hw].
  apply andb_true_iff in Hw. destruct Hw as [Hw Hv]. auto.
Qed.

(** ** Listing conversations and messages *)

Section Listing.
Variable env : Env.

Lemma GetConversations_run userID page pageSize s :
  healthy env 2 s ->
  GetConversations env userID page pageSize s
  = ((select_page (of_user userID) (fun c => (- Conversation.UpdatedAt c)%Z)
        (wrap_int (wrap_int (page - 1) * pageSize)) pageSize (db s),
      count_rows (of_user userID) (db s), None),
     mkState (db s) (2 + stmt_no s) (ai_log s)).
Proof.
  intros Hh. destruct s as [d k log].
  pose proof (Hh 0%nat) as F0. pose proof (Hh 1%nat) as F1.
  cbn [stmt_no] in F0, F1. rewrite Nat.add_0_r in F0.
  rewrite Nat.add_1_r in F1.
  unfold GetConversations, bind, Count, Find_Order_Offset_Limit, statement, ret.
  advance. rewrite F0 by lia. advance. rewrite F1 by lia. reflexivity.
Qed.

(** GetConversations reads and never writes, and whatever the store does,
    every conversation it returns is a visible row of the store that
    belongs to the requesting user. *)
Theorem GetConversations_only_own userID page pageSize s :
  let r := GetConversations env userID page pageSize s in
  db (snd r) = db s
  /\ Forall (fun c => In c (conversations (db s))
                      /\ Conversation.UserID c = userID
                      /\ Conversation.DeletedAt c = None)
       (fst (fst (fst r))).
Proof.
  cbv zeta. destruct s as [d k log].
  unfold GetConversations, bind, Count, Find_Order_Offset_Limit, statement, ret.
  advance.
  destruct (fault_plan env k); advance; [split; [reflexivity|constructor]|].
  destruct (fault_plan env (S k)); advance;
    [split; [reflexivity|constructor]|].
  cbn [fst snd db]. split; [reflexivity|].
  apply Forall_forall. intros c Hc.
  apply (select_page_In (T:=Conversation.t)) in Hc.
  destruct Hc as [Hin [Hu Hv]]. split; [exact Hin|].
  split; [now apply N.eqb_eq|].
  unfold visible in Hv. cbn in Hv.
  destruct (Conversation.DeletedAt c); [discriminate|reflexivity].
Qed.

(** With a store that answers both queries, page [page] (from 1) of size
    [pageSize] (at least 1), whose offset fits an [int]: no error, the
    total is the number of visible conversations of the user, the page
    holds as many rows as are left after the earlier pages, up to
    [pageSize], and they come most recently updated first. *)
Theorem GetConversations_page userID page pageSize s :
  healthy env 2 s ->
  (1 <= page)%Z -> (1 <= pageSize)%Z -> ((page - 1) * pageSize < 2 ^ 63)%Z ->
  let r := fst (GetConversations env userID page pageSize s) in
  snd r = None
  /\ snd (fst r) = count_rows (of_user userID) (db s)
  /\ Z.of_nat (length (fst (fst r)))
     = page_length (snd (fst r)) page pageSize
  /\ descending Conversation.UpdatedAt (fst (fst r)).
Proof.
  intros Hh Hp Hs Hb. cbv zeta. rewrite (GetConversations_run _ _ _ _ Hh).
  cbn [fst snd]. rewrite page_offset by assumption.
  split; [reflexivity|]. split; [reflexivity|]. split.
  - unfold select_page, count_rows.
    rewrite window_page_length by assumption.
    now rewrite order_by_length.
  - apply ascending_negated. unfold select_page.
    apply window_ascending, order_by_ascending.
Qed.

Lemma GetMessages_run userID conversationID page pageSize s c :
  healthy env 3 s ->
  select_first (owner_filter userID conversationID) (db s) = Ok c ->
  GetMessages env userID conversationID page pageSize s
  = ((select_page (in_conversation conversationID) Message.CreatedAt
        (wrap_int (wrap_int (page - 1) * pageSize)) pageSize (db s),
      count_rows (in_conversation conversationID) (db s), None),
     mkState (db s) (3 + stmt_no s) (ai_log s)).
Proof.
  intros Hh Hc. destruct s as [d k log]. advance in *.
  destruct (healthy3 _ _ _ _ Hh) as [F0 [F1 F2]].
  unfold GetMessages, bind, First, Count, Find_Order_Offset_Limit, statement,
    ret.
  advance. rewrite F0. fold (owner_filter userID conversationID).
  rewrite Hc. advance. rewrite F1. advance. rewrite F2. reflexivity.
Qed.

(** GetMessages on a conversation the user does not own: no message, total
    0 and [ErrRecordNotFound] (or the failure of the lookup itself); the
    messages table is not even queried. *)
Theorem GetMessages_not_owner userID conversationID page pageSize s :
  owns (db s) userID conversationID = false ->
  GetMessages env userID conversationID page pageSize s
  = (([], 0%Z,
      Some (match fault_plan env (stmt_no s) with
            | Some err => err
            | None => ErrRecordNotFound
            end)),
     mkState (db s) (S (stmt_no s)) (ai_log s)).
Proof.
  intros Hown. apply not_owner_not_found in Hown.
  unfold GetMessages, bind, First.
  destruct (fault_plan env (stmt_no s)) as [err|] eqn:F.
  - rewrite (statement_fails env _ s err F). reflexivity.
  - rewrite (statement_runs env _ s F). cbn [fst snd].
    fold (owner_filter userID conversationID). rewrite Hown. reflexivity.
Qed.

(** GetMessages for the owner, with a store that answers the three queries
    and a page as above: no error, the total is the number of visible
    messages of the conversation, the page has the length the total
    leaves it, every message in it is a visible message of that
    conversation, and they come in ascending creation time. *)
Theorem GetMessages_page userID conversationID page pageSize s :
  owns (db s) userID conversationID = true ->
  healthy env 3 s ->
  (1 <= page)%Z -> (1 <= pageSize)%Z -> ((page - 1) * pageSize < 2 ^ 63)%Z ->
  let r := fst (GetMessages env userID conversationID page pageSize s) in
  snd r = None
  /\ snd (fst r) = count_rows (in_conversation conversationID) (db s)
  /\ Z.of_nat (length (fst (fst r)))
     = page_length (snd (fst r)) page pageSize
  /\ ascending Message.CreatedAt (fst (fst r))
  /\ Forall (fun m => In m (messages (db s))
                      /\ Message.ConversationID m = conversationID
                      /\ Message.DeletedAt m = None)
       (fst (fst r)).
Proof.
  intros Hown Hh Hp Hs Hb. cbv zeta.
  destruct (owner_found _ _ _ Hown) as [c [Hc _]].
  rewrite (GetMessages_run _ _ _ _ _ c Hh Hc).
  cbn [fst snd]. rewrite page_offset by assumption.
  split; [reflexivity|]. split; [reflexivity|]. split; [|split].
  - unfold select_page, count_rows.
    rewrite window_page_length by assumption.
    now rewrite order_by_length.
  - unfold select_page. apply window_ascending, order_by_ascending.
  - apply Forall_forall. intros m Hm.
    apply (select_page_In (T:=Message.t)) in Hm.
    destruct Hm as [Hin [Hw Hv]]. split; [exact Hin|].
    split; [now apply N.eqb_eq|].
    unfold visible in Hv. cbn in Hv.
    destruct (Message.DeletedAt m); [discriminate|reflexivity].
Qed.

End Listing.

(** ** Creating, reading, renaming and deleting a conversation *)

Section Conversations.
Variable env : Env.

Lemma find_fresh_last {T} (p : T -> bool) (l : list T) (x : T) :
  (forall y, In y l -> p y = false) -> p x = true ->
  find p (l ++ [x]) = Some x.
Proof.
  intros Hl Hx. induction l as [|a l IH]; cbn.
  - now rewrite Hx.
  - rewrite (Hl a) by (now left). apply IH. intros y Hy. apply Hl. now right.
Qed.

Lemma find_none_last {T} (p : T -> bool) (l : list T) (x : T) :
  (forall y, In y l -> p y = false) -> p x = false ->
  find p (l ++ [x]) = None.
Proof.
  intros Hl Hx. induction l as [|a l IH]; cbn.
  - now rewrite Hx.
  - rewrite (Hl a) by (now left). apply IH. intros y Hy. apply Hl. now right.
Qed.

(** CreateConversation followed by GetConversation, with a store that
    executes both statements.  The new conversation belongs to the caller,
    carries the title and a key no earlier row has, and is appended to the
    table; the caller reads back exactly that row by its key, and any other
    user who asks for that key gets [ErrRecordNotFound]. *)
Theorem CreateConversation_then_Get userID title s :
  healthy env 2 s ->
  let created := CreateConversation env userID title s in
  exists c,
    fst created = (Some c, None)
    /\ Conversation.UserID c = userID
    /\ Conversation.Title c = title
    /\ Forall (fun c' => Conversation.ID c' <> Conversation.ID c)
         (conversations (db s))
    /\ conversations (db (snd created)) = conversations (db s) ++ [c]
    /\ fst (GetConversation env userID (Conversation.ID c) (snd created))
       = (Some c, None)
    /\ forall other,
         other <> userID ->
         fst (GetConversation env other (Conversation.ID c) (snd created))
         = (None, Some ErrRecordNotFound).
Proof.
  intros Hh. cbv zeta. destruct s as [d k log].
  pose proof (Hh 0%nat) as F0. pose proof (Hh 1%nat) as F1.
  cbn [stmt_no] in F0, F1. rewrite Nat.add_0_r in F0.
  rewrite Nat.add_1_r in F1.
  unfold CreateConversation, GetConversation, bind, Create, First, statement,
    ret.
  advance. rewrite F0 by lia.
  unfold insert_row. cbn [unique_clash table with_table Model_Conversation].
  rewrite no_unique_index. advance.
  set (c := with_pk (next_id (conversations d))
              (with_timestamps (clock env k)
                 (Conversation.mk 0 userID title 0 0 None))).
  assert (Fresh : forall c', In c' (conversations d) ->
                             Conversation.ID c' <> Conversation.ID c).
  { intros c' Hin E.
    pose proof (next_id_above (T:=Conversation.t) _ _ Hin) as Hlt.
    cbn in Hlt, E. rewrite E in Hlt. cbn in Hlt. lia. }
  exists c. cbn [fst snd db conversations].
  split; [reflexivity|]. split; [reflexivity|]. split; [reflexivity|].
  split; [apply Forall_forall; exact Fresh|]. split; [reflexivity|].
  advance. rewrite F1 by lia. unfold select_first.
  cbn [table Model_Conversation conversations db]. split.
  - rewrite find_fresh_last; [reflexivity| |].
    + intros y Hy. apply Fresh in Hy.
      apply N.eqb_neq in Hy. now rewrite Hy.
    + cbn. now rewrite !N.eqb_refl.
  - intros other Hother. rewrite find_none_last; [reflexivity| |].
    + intros y Hy. apply Fresh in Hy.
      apply N.eqb_neq in Hy. now rewrite Hy.
    + cbn. rewrite N.eqb_refl. apply N.eqb_neq in Hother.
      rewrite N.eqb_sym in Hother. cbn. now rewrite Hother.
Qed.

Lemma update_rows_none {T} `{Model T} (w : T -> bool) (change : T -> T)
  (l : list T) :
  existsb (fun r => w r && visible r) l = false ->
  map (fun r => if w r && visible r then change r else r) l = l.
Proof.
  induction l as [|a l IH]; [reflexivity|]. cbn [existsb map].
  intros E. apply orb_false_iff in E. destruct E as [Ea El].
  now rewrite Ea, IH.
Qed.

(** UpdateConversation on a conversation the caller does not own: the store
    is left exactly as it was, and the call reports no error unless the
    store failed the statement; a missing or foreign conversation is not
    an error. *)
Theorem UpdateConversation_not_owner userID conversationID title s :
  owns (db s) userID conversationID = false ->
  UpdateConversation env userID conversationID title s
  = (fault_plan env (stmt_no s), mkState (db s) (S (stmt_no s)) (ai_log s)).
Proof.
  intros Hown. destruct s as [d k log]. advance in *.
  unfold UpdateConversation, bind, statement, ret. advance.
  destruct (fault_plan env k); [reflexivity|].
  unfold update_rows. cbn [table with_table Model_Conversation].
  fold (owner_filter userID conversationID).
  unfold owns in Hown.
  rewrite (update_rows_none (T:=Conversation.t)) by exact Hown.
  destruct d; reflexivity.
Qed.

(** UpdateConversation by the owner followed by GetConversation, with a
    store that executes both statements: no error, users and messages are
    untouched, and the owner reads the conversation back under the new
    title, with the time of the update as [UpdatedAt] and everything else
    as before. *)
Theorem UpdateConversation_then_Get userID conversationID title s c :
  healthy env 2 s ->
  select_first (owner_filter userID conversationID) (db s) = Ok c ->
  let updated := UpdateConversation env userID conversationID title s in
  fst updated = None
  /\ users (db (snd updated)) = users (db s)
  /\ messages (db (snd updated)) = messages (db s)
  /\ fst (GetConversation env userID conversationID (snd updated))
     = (Some (Conversation.mk (Conversation.ID c) (Conversation.UserID c)
                title (Conversation.CreatedAt c) (clock env (stmt_no s))
                (Conversation.DeletedAt c)), None).
Proof.
  intros Hh Hc. cbv zeta. destruct s as [d k log]. advance in *.
  pose proof (Hh 0%nat) as F0. pose proof (Hh 1%nat) as F1.
  cbn [stmt_no] in F0, F1. rewrite Nat.add_0_r in F0.
  rewrite Nat.add_1_r in F1.
  unfold UpdateConversation, GetConversation, bind, First, statement, ret.
  advance. rewrite F0 by lia. cbn [fst snd db stmt_no ai_log].
  rewrite F1 by lia.
  cbn [fst snd db]. unfold update_rows.
  cbn [table with_table Model_Conversation users messages].
  repeat (split; [reflexivity|]).
  unfold select_first, owner_filter in *.
  cbn [table Model_Conversation conversations] in *.
  destruct (find _ (conversations d)) as [c0|] eqn:F; [|discriminate].
  injection Hc as ->.
  rewrite find_map_stable.
  - rewrite F. cbn [option_map]. apply find_some in F.
    destruct F as [_ Hp]. rewrite Hp. reflexivity.
  - intros x.
    destruct ((Conversation.ID x =? conversationID)%N
              && (Conversation.UserID x =? userID)%N && visible x) eqn:E;
      [|exact E].
    apply andb_true_iff in E. destruct E as [Eo Ev].
    cbn. rewrite Eo. unfold visible in *. cbn in *. exact Ev.
Qed.

(** After a DeleteConversation that the store executed, the conversation is
    gone for its former owner: GetConversation, GetMessages and SendMessage
    all answer [ErrRecordNotFound], and SendMessage stores nothing. *)
Theorem DeleteConversation_then_not_found userID conversationID s
  page pageSize req :
  healthy env 4 s ->
  let deleted := DeleteConversation env userID conversationID s in
  fst deleted = None
  /\ fst (GetConversation env userID conversationID (snd deleted))
     = (None, Some ErrRecordNotFound)
  /\ fst (GetMessages env userID conversationID page pageSize (snd deleted))
     = ([], 0%Z, Some ErrRecordNotFound)
  /\ SendMessage env userID conversationID req (snd deleted)
     = ((None, None, Some ErrRecordNotFound),
        mkState (db (snd deleted)) (4 + stmt_no s) (ai_log s)).
Proof.
  intros Hh. cbv zeta.
  assert (healthy env 3 s) as Hh3 by (intros i Hi; apply Hh; lia).
  pose proof (DeleteConversation_succeeds env userID conversationID s Hh3) as E.
  rewrite DeleteConversation_run in *. cbn [fst snd] in *. rewrite E.
  destruct s as [d k log]. advance in *.
  destruct (healthy3 _ _ _ _ Hh3) as [F0 [F1 F2]].
  rewrite F0, F1. cbn [Nat.add].
  pose proof (Hh 3%nat) as F3. cbn [stmt_no] in F3.
  replace (k + 3)%nat with (S (S (S k))) in F3 by lia.
  pose proof (not_owner_not_found _ _ _
                (both_deleted_not_owned env userID conversationID k d)) as NF.
  split; [reflexivity|].
  unfold GetConversation, GetMessages, SendMessage, bind, First, statement, ret.
  advance. rewrite F3 by lia.
  fold (owner_filter userID conversationID). rewrite NF.
  repeat split.
Qed.

(** DeleteConversation, whatever the store does and whoever calls it, never
    touches the users table, never removes a row physically, and leaves
    every message of another conversation and every conversation other
    than the caller's own target exactly as it was. *)
Theorem DeleteConversation_spares_the_rest userID conversationID s :
  let d' := db (snd (DeleteConversation env userID conversationID s)) in
  users d' = users (db s)
  /\ length (messages d') = length (messages (db s))
  /\ length (conversations d') = length (conversations (db s))
  /\ Forall (fun m => Message.ConversationID m = conversationID
                      \/ In m (messages d'))
       (messages (db s))
  /\ Forall (fun c => owner_filter userID conversationID c = true
                      \/ In c (conversations d'))
       (conversations (db s)).
Proof.
  cbv zeta. rewrite DeleteConversation_run. cbn [snd db].
  destruct (first_fault env (stmt_no s)).
  - repeat split; try reflexivity; apply Forall_forall; intros; now right.
  - unfold both_deleted, soft_delete.
    cbn [table with_table users messages conversations Model_Message
           Model_Conversation].
    rewrite !length_map. repeat split; try reflexivity.
    + apply Forall_forall. intros m Hm.
      destruct (in_conversation conversationID m) eqn:E.
      * left. now apply N.eqb_eq.
      * right. apply in_map_iff. exists m. now rewrite E.
    + apply Forall_forall. intros c Hc.
      destruct (owner_filter userID conversationID c) eqn:E; [now left|].
      right. apply in_map_iff. exists c. now rewrite E.
Qed.

End Conversations.

(** ** More on the chat turn *)

Section ChatTurnMore.
Variable env : Env.
Variables userID conversationID : uint.

Lemma stream_loop_callback_error callback pre chunk err post acc :
  forallb (quiet callback) pre = true ->
  callback chunk = Some err ->
  stream_loop callback (pre ++ RecvChunk chunk :: post) acc = ReturnErr err.
Proof.
  revert acc. induction pre as [|ev pre IH]; intros acc H Hc.
  - cbn. now rewrite Hc.
  - cbn [forallb] in H. apply andb_true_iff in H. destruct H as [Hq Hpre].
    destruct ev as [c| |[e|]]; cbn in Hq; try discriminate; cbn.
    + destruct (callback c); [discriminate|]. now apply IH.
    + now apply IH.
Qed.

(** A streaming turn in which the callback refuses a chunk (after chunks
    it accepted): StreamChat returns the callback's error with the user
    message, and the store is the one before the call plus the user
    message; nothing of the partial reply is stored. *)
Theorem StreamChat_callback_failure content callback s pre chunk err post :
  owns (db s) userID conversationID = true ->
  healthy env 3 s ->
  stream_plan env (length (ai_log s)) = pre ++ RecvChunk chunk :: post ->
  forallb (quiet callback) pre = true ->
  callback chunk = Some err ->
  let um := stored_message (db s) (clock env (S (stmt_no s))) conversationID
              "user" content in
  StreamChat env userID conversationID content callback s
  = (Some (Some um, Some err),
     mkState (with_message um (db s)) (3 + stmt_no s)
       (ai_log s ++ [history_input conversationID (with_message um (db s))])).
Proof.
  intros Hown Hh Hplan Hq Hcb um.
  destruct (owner_found _ _ _ Hown) as [c [Hc _]].
  destruct s as [d k log]. advance in *.
  destruct (healthy3 _ _ _ _ Hh) as [F0 [F1 F2]].
  unfold StreamChat, bind, First, Create, Find_Order_Limit, statement,
    StreamResponse, ret.
  advance. rewrite F0.
  fold (owner_filter userID conversationID). rewrite Hc.
  advance. rewrite F1. rewrite insert_message.
  advance. rewrite F2.
  advance. rewrite Hplan.
  rewrite (stream_loop_callback_error callback pre chunk err post "" Hq Hcb).
  reflexivity.
Qed.

(** StreamChat on a conversation the user does not own: an error, which is
    [ErrRecordNotFound] unless the store failed the lookup itself, no user
    message, an unchanged store and no call to the model. *)
Theorem StreamChat_not_owner content callback s :
  owns (db s) userID conversationID = false ->
  StreamChat env userID conversationID content callback s
  = (Some (None,
           Some (match fault_plan env (stmt_no s) with
                 | Some err => err
                 | None => ErrRecordNotFound
                 end)),
     mkState (db s) (S (stmt_no s)) (ai_log s)).
Proof.
  intros Hown. apply not_owner_not_found in Hown.
  unfold StreamChat, bind, First.
  destruct (fault_plan env (stmt_no s)) as [err|] eqn:F.
  - rewrite (statement_fails env _ s err F). reflexivity.
  - rewrite (statement_runs env _ s F). cbn [fst snd].
    fold (owner_filter userID conversationID). rewrite Hown. reflexivity.
Qed.

(** GenerateResponse never hands back an empty reply as a success: when it
    reports no error the text is not empty, and when it reports an error
    the text is empty.  Either way the model was called exactly once. *)
Theorem GenerateResponse_text_or_error input s :
  let r := GenerateResponse env input s in
  (snd (fst r) = None <-> fst (fst r) <> "")
  /\ ai_log (snd r) = ai_log s ++ [input]
  /\ db (snd r) = db s.
Proof.
  cbv zeta. unfold GenerateResponse, bind, model_Generate, ret. cbn [fst snd].
  destruct (generate_plan env (length (ai_log s))) as [[resp|] [err|]];
    cbn [fst snd ai_log db]; try (split; [split; [discriminate|tauto]|auto]).
  destruct (schema.Content resp =? "") eqn:E; cbn [fst snd ai_log db].
  - split; [split; [discriminate|tauto]|auto].
  - split; [|auto]. split; [|reflexivity].
    intros _. now apply String.eqb_neq.
Qed.

Lemma select_ordered_In n d (m : Message.t) :
  In m (select_ordered (in_conversation conversationID) n d) ->
  In m (messages d) /\ Message.ConversationID m = conversationID
  /\ Message.DeletedAt m = None.
Proof.
  unfold select_ordered. intros H.
  apply firstn_In in H. apply order_by_In in H. apply filter_In in H.
  destruct H as [Hin Hw]. apply andb_true_iff in Hw. destruct Hw as [Hw Hv].
  split; [exact Hin|]. split; [now apply N.eqb_eq|].
  unfold visible in Hv. cbn in Hv.
  destruct (Message.DeletedAt m); [discriminate|reflexivity].
Qed.

(** What both chat paths give the model.  For the owner and with a store
    that executes the first three statements, SendMessage and StreamChat
    call the model once, with the same input: the image under the role
    switch of at most 20 visible messages of this conversation, in
    ascending creation time.  When the conversation held fewer than 20
    visible messages before the turn, the message just stored is among
    them. *)
Theorem model_input_of_a_turn content callback s :
  owns (db s) userID conversationID = true ->
  healthy env 3 s ->
  let um := stored_message (db s) (clock env (S (stmt_no s))) conversationID
              "user" content in
  let history :=
    select_ordered (in_conversation conversationID) 20
      (with_message um (db s)) in
  ai_log (snd (SendMessage env userID conversationID
                 (mkSendMessageRequest content) s))
  = ai_log s ++ [map to_ai_message history]
  /\ ai_log (snd (StreamChat env userID conversationID content callback s))
     = ai_log s ++ [map to_ai_message history]
  /\ (length history <= 20)%nat
  /\ ascending Message.CreatedAt history
  /\ Forall (fun m => Message.ConversationID m = conversationID
                      /\ Message.DeletedAt m = None)
       history
  /\ ((20 <= count_rows (in_conversation conversationID) (db s))%Z
      \/ In um history).
Proof.
  intros Hown Hh um history.
  destruct (owner_found _ _ _ Hown) as [c [Hc _]].
  destruct s as [d k log]. advance in *.
  destruct (healthy3 _ _ _ _ Hh) as [F0 [F1 F2]].
  split; [|split; [|split; [|split; [|split]]]].
  - unfold SendMessage, bind, First, Create, Find_Order_Limit,
      Update_updated_at, statement, ret.
    advance. rewrite F0.
    fold (owner_filter userID conversationID). rewrite Hc.
    advance. rewrite F1. rewrite insert_message.
    advance. rewrite F2.
    rewrite GenerateResponse_run. advance.
    destruct (provider_reply _ _) as [text [e|]]; [reflexivity|].
    advance. destruct (fault_plan env (S (S (S k)))); [reflexivity|].
    rewrite insert_message. advance.
    destruct (fault_plan env (S (S (S (S k))))); reflexivity.
  - unfold StreamChat, bind, First, Create, Find_Order_Limit,
      Update_updated_at, statement, StreamResponse, ret.
    advance. rewrite F0.
    fold (owner_filter userID conversationID). rewrite Hc.
    advance. rewrite F1. rewrite insert_message.
    advance. rewrite F2. advance.
    destruct (stream_loop callback _ "") as [full|e|]; try reflexivity.
    advance. destruct (fault_plan env (S (S (S k)))); [reflexivity|].
    rewrite insert_message. advance.
    destruct (fault_plan env (S (S (S (S k))))); reflexivity.
  - unfold history, select_ordered. apply firstn_le_length.
  - unfold history, select_ordered.
    apply ascending_firstn, order_by_ascending.
  - apply Forall_forall. intros m Hm. unfold history in Hm.
    apply select_ordered_In in Hm. tauto.
  - destruct (Z.le_gt_cases 20
                (count_rows (in_conversation conversationID) d))
      as [Hge|Hcount]; [now left|right].
    unfold history, select_ordered, count_rows in *.
    cbn [table Model_Message] in *.
    unfold with_message. cbn [messages].
    rewrite firstn_all2.
    + apply order_by_In. apply filter_In. split.
      * apply in_or_app. right. now left.
      * unfold um, stored_message, in_conversation, visible. cbn.
        now rewrite N.eqb_refl.
    + rewrite order_by_length, filter_app, length_app. cbn [filter].
      destruct (in_conversation conversationID um && visible um);
        cbn [length]; lia.
Qed.

End ChatTurnMore.

(** ** Accounts: Login, GetUserByID, UpdateProfile, ChangePassword *)

Section AccountsProperties.
Variable env : Env.
Variable CheckPassword : string -> string -> bool.

(** Login with an email no active account has and Login with a wrong
    password for an existing account end in the same way: the same error
    value, no response, and the store untouched. *)
Theorem Login_rejections_look_alike req s :
  fault_plan env (stmt_no s) = None ->
  select_first (by_email (login_Email req)) (db s) = Fail ErrRecordNotFound
  \/ (exists u, select_first (by_email (login_Email req)) (db s) = Ok u
                /\ CheckPassword (login_Password req) (User.Password u) = false) ->
  Login env CheckPassword req s
  = ((None, Some (ErrNew "invalid email or password")),
     mkState (db s) (S (stmt_no s)) (ai_log s)).
Proof.
  intros F H. unfold Login, bind, First. rewrite (statement_runs env _ s F).
  cbn [fst snd].
  destruct H as [H|[u [H Hpw]]]; unfold by_email in H; rewrite H.
  - reflexivity.
  - rewrite Hpw. reflexivity.
Qed.

(** What a successful Register stored, in full. *)
Lemma Register_success_row req s resp s1 :
  Register env req s = ((Some resp, None), s1) ->
  User resp
  = User.mk (next_id (users (db s))) (req_Email req)
      (fst (HashPassword env (req_Password req))) (req_Nickname req) "" true
      (clock env (S (stmt_no s))) (clock env (S (stmt_no s))) None
  /\ existsb (fun u => req_Email req =? User.Email u) (users (db s)) = false
  /\ GenerateJWT env (User.ID (User resp)) (JWT_Secret env) (JWT_Expiration env)
     = (Token resp, None)
  /\ s1 = mkState (mkDB (users (db s) ++ [User resp]) (conversations (db s))
                     (messages (db s)))
            (2 + stmt_no s) (ai_log s).
Proof.
  destruct s as [d k log].
  unfold Register, bind, First, Create, statement, ret.
  advance.
  destruct (fault_plan env k); advance;
    [|destruct (select_first _ d); [discriminate|]];
    (destruct (HashPassword env (req_Password req)) as [h [e1|]];
       [discriminate|];
     advance;
     destruct (fault_plan env (S k)); advance; [discriminate|];
     unfold insert_row; cbn [table with_table users Model_User unique_clash];
     destruct (existsb _ (users d)) eqn:Clash; advance; [discriminate|];
     destruct (GenerateJWT env _ _ _) as [token [e2|]] eqn:J; [discriminate|];
     intros H; injection H as <- <-; cbn in *; auto).
Qed.

(** Register followed by Login with the same email and password, when the
    store executes the lookup and the password check accepts a password
    against its own hash: Login finds the registered row, accepts the
    password and answers with that row and the token [GenerateJWT] issues
    for its key (or with the error of [GenerateJWT]); and GetUserByID finds
    the row by its key. *)
Theorem Register_then_Login req s resp s1 :
  Register env req s = ((Some resp, None), s1) ->
  fault_plan env (stmt_no s1) = None ->
  CheckPassword (req_Password req) (fst (HashPassword env (req_Password req)))
    = true ->
  fst (Login env CheckPassword
         (mkLoginRequest (req_Email req) (req_Password req)) s1)
    = match GenerateJWT env (User.ID (User resp)) (JWT_Secret env)
              (JWT_Expiration env) with
      | (_, Some err) => (None, Some err)
      | (token, None) => (Some (mkLoginResponse token (User resp)), None)
      end
  /\ fst (GetUserByID env (User.ID (User resp)) s1) = (Some (User resp), None).
Proof.
  intros HR F Hcheck.
  destruct (Register_success_row _ _ _ _ HR) as [Hrow [Hfresh [Hjwt Hs1]]].
  subst s1. cbn [stmt_no] in F.
  assert (Hmail : find (fun r => by_email (req_Email req) r && visible r)
                    (users (db s) ++ [User resp]) = Some (User resp)).
  { apply find_fresh_last.
    - intros y Hy. unfold by_email.
      assert ((req_Email req =? User.Email y) = false) as E.
      { destruct (req_Email req =? User.Email y) eqn:E; [|reflexivity].
        assert (existsb (fun u => req_Email req =? User.Email u)
                  (users (db s)) = true) by (apply existsb_exists; eauto).
        congruence. }
      rewrite String.eqb_sym, E. reflexivity.
    - rewrite Hrow. unfold by_email, visible. cbn.
      now rewrite String.eqb_refl. }
  assert (Hkey : find (fun r => by_id_active (User.ID (User resp)) r
                                && visible r)
                   (users (db s) ++ [User resp]) = Some (User resp)).
  { apply find_fresh_last.
    - intros y Hy. pose proof (next_id_above (T:=User.t) _ _ Hy) as Hlt.
      unfold by_id_active. rewrite Hrow. cbn in *.
      replace (User.ID y =? next_id (users (db s)))%N with false;
        [reflexivity|].
      symmetry. apply N.eqb_neq. lia.
    - rewrite Hrow. unfold by_id_active, visible. cbn.
      now rewrite N.eqb_refl. }
  unfold Login, GetUserByID, bind, First, statement, ret.
  advance. rewrite F. unfold select_first.
  cbn [table Model_User users login_Email login_Password].
  unfold by_email in Hmail. unfold by_id_active in Hkey.
  rewrite Hmail, Hkey. split; [|reflexivity].
  assert (User.Password (User resp)
          = fst (HashPassword env (req_Password req))) as Hp
    by (rewrite Hrow; reflexivity).
  rewrite Hp, Hcheck. cbn [negb].
  destruct (GenerateJWT env _ _ _) as [token [e|]]; reflexivity.
Qed.

(** ChangePassword with a wrong old password: the error "invalid old
    password", and the store untouched. *)
Theorem ChangePassword_wrong_old userID oldPassword newPassword s u :
  fault_plan env (stmt_no s) = None ->
  select_first (by_id userID) (db s) = Ok u ->
  CheckPassword oldPassword (User.Password u) = false ->
  ChangePassword env CheckPassword userID oldPassword newPassword s
  = (Some (ErrNew "invalid old password"),
     mkState (db s) (S (stmt_no s)) (ai_log s)).
Proof.
  intros F Hu Hpw. unfold ChangePassword, bind, First.
  rewrite (statement_runs env _ s F). cbn [fst snd].
  unfold by_id in Hu. rewrite Hu, Hpw. reflexivity.
Qed.

(** ChangePassword with the right old password, for an account that is the
    active one of its email, followed by Login, with a store that executes
    the three statements: the change reports no error, and the following
    Login is decided by the new hash alone, accepting exactly the passwords
    the check accepts against it. *)
Theorem ChangePassword_then_Login userID oldPassword newPassword s u hashed
  token password :
  healthy env 3 s ->
  select_first (by_id userID) (db s) = Ok u ->
  select_first (by_email (User.Email u)) (db s) = Ok u ->
  CheckPassword oldPassword (User.Password u) = true ->
  HashPassword env newPassword = (hashed, None) ->
  GenerateJWT env (User.ID u) (JWT_Secret env) (JWT_Expiration env)
    = (token, None) ->
  let changed := ChangePassword env CheckPassword userID oldPassword
                   newPassword s in
  let u' := User.mk (User.ID u) (User.Email u) hashed (User.Nickname u)
              (User.Avatar u) (User.IsActive u) (User.CreatedAt u)
              (clock env (S (stmt_no s))) (User.DeletedAt u) in
  fst changed = None
  /\ fst (Login env CheckPassword (mkLoginRequest (User.Email u) password)
            (snd changed))
     = (if CheckPassword password hashed
        then (Some (mkLoginResponse token u'), None)
        else (None, Some (ErrNew "invalid email or password"))).
Proof.
  intros Hh Hid Hmail Hold Hhash Hjwt. cbv zeta.
  unfold by_id in Hid. unfold by_email in Hmail.
  destruct s as [d k log]. advance in *.
  destruct (healthy3 _ _ _ _ Hh) as [F0 [F1 F2]].
  unfold ChangePassword, Login, bind, First, statement, ret.
  advance. rewrite F0. rewrite Hid. rewrite Hold. cbn [negb].
  rewrite Hhash. advance. rewrite F1. cbn [fst snd db stmt_no ai_log].
  split; [reflexivity|]. rewrite F2.
  unfold select_first, update_rows in *.
  cbn [table with_table users Model_User login_Email login_Password] in *.
  destruct (find _ (users d)) as [u0|] eqn:Fid in Hid; [|discriminate].
  injection Hid as ->.
  destruct (find (fun r => (User.Email r =? User.Email u)
                           && Bool.eqb (User.IsActive r) true && visible r)
              (users d))
    as [u1|] eqn:Fm; [|discriminate].
  injection Hmail as ->.
  rewrite find_map_stable.
  - rewrite Fm. cbn [option_map].
    apply find_some in Fm. destruct Fm as [_ Hp].
    apply andb_true_iff in Hp. destruct Hp as [_ Hv].
    rewrite N.eqb_refl, Hv. cbn [andb User.Password User.ID].
    destruct (CheckPassword password hashed); cbn [negb]; [|reflexivity].
    now rewrite Hjwt.
  - intros x. destruct ((User.ID x =? User.ID u)%N && visible x); reflexivity.
Qed.

(** UpdateProfile, whatever the store does: no row is added or removed, no
    user's key, email, password, active flag or deletion mark changes, and
    conversations and messages are untouched. *)
Theorem UpdateProfile_keeps_identity userID nickname avatar s :
  let d' := db (snd (UpdateProfile env userID nickname avatar s)) in
  map User.ID (users d') = map User.ID (users (db s))
  /\ map User.Email (users d') = map User.Email (users (db s))
  /\ map User.Password (users d') = map User.Password (users (db s))
  /\ map User.IsActive (users d') = map User.IsActive (users (db s))
  /\ map User.DeletedAt (users d') = map User.DeletedAt (users (db s))
  /\ conversations d' = conversations (db s)
  /\ messages d' = messages (db s).
Proof.
  cbv zeta. destruct s as [d k log].
  unfold UpdateProfile, bind, statement, ret. advance.
  destruct (fault_plan env k); cbn [fst snd db]; [repeat split|].
  unfold update_rows. cbn [table with_table users conversations messages
                             Model_User].
  rewrite !map_map.
  repeat split; apply map_ext; intros u;
    destruct ((User.ID u =? userID)%N && visible u); reflexivity.
Qed.

(** UpdateProfile followed by GetUserByID for an active user, with a store
    that executes both statements: an empty nickname or avatar leaves the
    stored one in place, a non-empty one replaces it, and [UpdatedAt] is
    the time of the update. *)
Theorem UpdateProfile_then_Get userID nickname avatar s u :
  healthy env 2 s ->
  select_first (by_id_active userID) (db s) = Ok u ->
  let updated := UpdateProfile env userID nickname avatar s in
  fst updated = None
  /\ fst (GetUserByID env userID (snd updated))
     = (Some (User.mk (User.ID u) (User.Email u) (User.Password u)
                (if nickname =? "" then User.Nickname u else nickname)
                (if avatar =? "" then User.Avatar u else avatar)
                (User.IsActive u) (User.CreatedAt u) (clock env (stmt_no s))
                (User.DeletedAt u)), None).
Proof.
  intros Hh Hu. cbv zeta. unfold by_id_active in Hu.
  destruct s as [d k log]. advance in *.
  pose proof (Hh 0%nat) as F0. pose proof (Hh 1%nat) as F1.
  cbn [stmt_no] in F0, F1. rewrite Nat.add_0_r in F0.
  rewrite Nat.add_1_r in F1.
  unfold UpdateProfile, GetUserByID, bind, First, statement, ret.
  advance. rewrite F0 by lia. cbn [fst snd db stmt_no ai_log].
  rewrite F1 by lia. split; [reflexivity|].
  unfold select_first, update_rows in *.
  cbn [table with_table users Model_User] in *.
  destruct (find _ (users d)) as [u0|] eqn:Fu; [|discriminate].
  injection Hu as ->.
  rewrite find_map_stable.
  - rewrite Fu. cbn [option_map]. apply find_some in Fu.
    destruct Fu as [_ Hp]. apply andb_true_iff in Hp. destruct Hp as [Hi Hv].
    apply andb_true_iff in Hi.
    destruct Hi as [Hi _]. rewrite Hi, Hv. reflexivity.
  - intros x. destruct ((User.ID x =? userID)%N && visible x); reflexivity.
Qed.

End AccountsProperties.

(** ** The handlers *)

Section Handlers.
Variable env : Env.
Local Open Scope Z_scope.

Lemma quot_ceiling total pageSize :
  0 <= total -> 1 <= pageSize ->
  let pages := Z.quot (total + pageSize - 1) pageSize in
  (pages - 1) * pageSize < total <= pages * pageSize.
Proof.
  intros Ht Hs. cbv zeta.
  rewrite Z.quot_div_nonneg by lia.
  pose proof (Z.div_mod (total + pageSize - 1) pageSize ltac:(lia)) as E.
  pose proof (Z.mod_pos_bound (total + pageSize - 1) pageSize ltac:(lia)) as B.
  nia.
Qed.

Lemma totalPages_no_wrap total pageSize :
  0 <= total < 2 ^ 62 -> 1 <= pageSize <= 100 ->
  chat_handler.totalPages total pageSize
  = Z.quot (total + pageSize - 1) pageSize.
Proof.
  intros Ht Hs. unfold chat_handler.totalPages.
  rewrite (wrap_int_small (total + pageSize)) by lia.
  rewrite (wrap_int_small (total + pageSize - 1)) by lia.
  apply wrap_int_small.
  assert (0 <= Z.quot (total + pageSize - 1) pageSize <= total + pageSize - 1).
  { rewrite Z.quot_div_nonneg by lia. split.
    - apply Z.div_pos; lia.
    - apply Z.div_le_upper_bound; nia. }
  lia.
Qed.

(** The number of pages a listing reports, for a total that is a count and
    a page size the handlers let through: the least number of pages of that
    size that hold [total] rows (0 for an empty listing). *)
Theorem totalPages_is_the_ceiling total pageSize :
  0 <= total < 2 ^ 62 -> 1 <= pageSize <= 100 ->
  let pages := chat_handler.totalPages total pageSize in
  (pages - 1) * pageSize < total <= pages * pageSize.
Proof.
  intros Ht Hs. cbv zeta. rewrite totalPages_no_wrap by assumption.
  apply quot_ceiling; lia.
Qed.

Lemma count_rows_range {T} `{Model T} (w : T -> bool) d :
  0 <= count_rows w d.
Proof. unfold count_rows. lia. Qed.

(** The conversations listing, end to end, for an authenticated request and
    a store that answers both queries (and a page whose offset fits an
    [int]): status 200; the page number is at least 1 and the page size is
    in [1,100]; the page holds the caller's conversations only, as many as
    the total leaves for that page; and [TotalPages] is the least number of
    pages of that size that hold [Total] rows. *)
Theorem GetConversations_response req userID s :
  chat_handler.user_id req = Some userID ->
  healthy env 2 s ->
  let p := handler.GetConversations_pagination
             (chat_handler.query_page req) (chat_handler.query_page_size req) in
  (fst p - 1) * snd p < 2 ^ 63 ->
  count_rows (of_user userID) (db s) < 2 ^ 62 ->
  exists conversations total pages,
    fst (chat_handler.GetConversations env req s)
    = chat_handler.JSON 200
        (chat_handler.PaginationResponse
           (chat_handler.Conversations conversations) total (fst p) (snd p)
           pages)
    /\ 1 <= fst p /\ 1 <= snd p <= 100
    /\ total = count_rows (of_user userID) (db s)
    /\ Z.of_nat (length conversations) = page_length total (fst p) (snd p)
    /\ Forall (fun c => Conversation.UserID c = userID) conversations
    /\ (pages - 1) * snd p < total <= pages * snd p.
Proof.
  intros Hu Hh p Hoff Hcount.
  assert (1 <= fst p) as Hp.
  { unfold p, handler.GetConversations_pagination. cbn [fst].
    rewrite page_floor. lia. }
  assert (1 <= snd p <= 100) as Hs.
  { unfold p, handler.GetConversations_pagination. cbn [snd].
    apply page_size_reset. lia. }
  unfold chat_handler.GetConversations. rewrite Hu.
  fold p. destruct p as [page pageSize]. cbn [fst snd] in *.
  unfold bind. rewrite (GetConversations_run env _ _ _ _ Hh).
  rewrite page_offset by lia.
  eexists _, _, _. split; [reflexivity|].
  split; [exact Hp|]. split; [exact Hs|]. split; [reflexivity|]. split; [|split].
  - unfold select_page, count_rows.
    rewrite window_page_length by lia. now rewrite order_by_length.
  - apply Forall_forall. intros c Hc.
    apply (select_page_In (T:=Conversation.t)) in Hc.
    destruct Hc as [_ [Hc _]]. now apply N.eqb_eq.
  - rewrite totalPages_no_wrap; [|split; [apply count_rows_range|exact Hcount]
                                 |exact Hs].
    apply quot_ceiling; [apply count_rows_range|lia].
Qed.

(** How the handlers answer a well-formed request for a conversation the
    caller does not own, with a store that answers the lookup:
    GetConversation answers 404 "Conversation not found", whereas
    GetMessages answers 500 with the text of [ErrRecordNotFound]; neither
    changes the store. *)
Theorem foreign_conversation_statuses req userID conversationID s :
  chat_handler.user_id req = Some userID ->
  ParseUint32 (chat_handler.param_id req) = (conversationID, None) ->
  owns (db s) userID conversationID = false ->
  fault_plan env (stmt_no s) = None ->
  chat_handler.GetConversation env req s
  = (chat_handler.JSON 404
       (chat_handler.ErrorResponse
          (chat_handler.Literal "Conversation not found")),
     mkState (db s) (S (stmt_no s)) (ai_log s))
  /\ chat_handler.GetMessages env req s
     = (chat_handler.JSON 500
          (chat_handler.ErrorResponse (chat_handler.ErrorOf ErrRecordNotFound)),
        mkState (db s) (S (stmt_no s)) (ai_log s)).
Proof.
  intros Hu Hid Hown F.
  apply not_owner_not_found in Hown as NF.
  unfold chat_handler.GetConversation, chat_handler.GetMessages.
  rewrite Hu, Hid. split.
  - unfold GetConversation, First, statement, ret, bind. rewrite F.
    fold (owner_filter userID conversationID). rewrite NF. reflexivity.
  - destruct (handler.GetMessages_pagination _ _) as [page pageSize].
    unfold GetMessages, First, statement, ret, bind. rewrite F.
    fold (owner_filter userID conversationID). rewrite NF. reflexivity.
Qed.

End Handlers.

(** ** The Auth middleware *)

Section Middleware.

Lemma CutPrefix_spec s prefix rest :
  CutPrefix s prefix = Some rest <-> s = (prefix ++ rest)%string.
Proof.
  revert s. induction prefix as [|p prefix IH]; intros [|c s]; cbn.
  - split; [intros [= <-]; reflexivity|intros <-; reflexivity].
  - split; [intros [= <-]; reflexivity|intros <-; reflexivity].
  - split; discriminate.
  - destruct (Ascii.eqb_spec c p) as [->|Hne].
    + rewrite IH. split; [intros ->; reflexivity|intros [= ->]; reflexivity].
    + split; [discriminate|]. intros [= E _]. contradiction.
Qed.

(** The Auth middleware lets a request through exactly when its
    [Authorization] header is "Bearer " followed by a token that
    [ValidateJWT] accepts under the configured secret, and then the user ID
    it puts in the context is the one of the token's claims.  A bare
    token, without the prefix, never passes, valid or not. *)
Theorem Auth_passes_iff (ValidateJWT : string -> string -> result uint)
  (secret token : string) (user_id : uint) :
  middleware.Auth ValidateJWT secret token = middleware.Next user_id
  <-> exists rest,
        token = ("Bearer " ++ rest)%string
        /\ ValidateJWT rest secret = Ok user_id.
Proof.
  unfold middleware.Auth, TrimPrefix. split.
  - destruct (String.length token =? 0)%nat; [discriminate|].
    destruct (CutPrefix token "Bearer ") as [rest|] eqn:E.
    + apply CutPrefix_spec in E.
      destruct (rest =? token); [discriminate|].
      destruct (ValidateJWT rest secret) as [uid|] eqn:V; [|discriminate].
      intros [= ->]. eauto.
    + rewrite String.eqb_refl. discriminate.
  - intros [rest [-> V]].
    assert (CutPrefix ("Bearer " ++ rest) "Bearer " = Some rest) as E
      by (now apply CutPrefix_spec).
    rewrite E. cbn [String.length append Nat.eqb].
    replace (rest =? String "B" (String "e" (String "a" (String "r"
               (String "e" (String "r" (String " " rest)))))))
      with false.
    + now rewrite V.
    + symmetry. apply String.eqb_neq. intros H.
      apply (f_equal String.length) in H. cbn in H. lia.
Qed.

End Middleware.

(** ** The further properties on the scenarios *)

Lemma GetConversations_page_witness :
  let r := fst (GetConversations (steady_env kyoto []) 1 1 20 trip_state) in
  snd r = None
  /\ snd (fst r) = count_rows (of_user 1) trip_db
  /\ Z.of_nat (length (fst (fst r))) = page_length (snd (fst r)) 1 20
  /\ descending Conversation.UpdatedAt (fst (fst r)).
Proof.
  exact (GetConversations_page (steady_env kyoto []) 1 1 20 trip_state
           (steady_env_healthy kyoto [] 2 trip_state)
           ltac:(lia) ltac:(lia) ltac:(lia)).
Defined.

Lemma GetMessages_not_owner_witness :
  GetMessages (steady_env kyoto []) 2 1 1 50 trip_state
  = (([], 0%Z, Some ErrRecordNotFound), mkState trip_db 1 []).
Proof.
  exact (GetMessages_not_owner (steady_env kyoto []) 2 1 1 50 trip_state
           eq_refl).
Defined.

Lemma GetMessages_page_witness :
  let r := fst (GetMessages (steady_env kyoto []) 1 1 1 50 trip_state) in
  snd r = None
  /\ snd (fst r) = count_rows (in_conversation 1) trip_db
  /\ Z.of_nat (length (fst (fst r))) = page_length (snd (fst r)) 1 50
  /\ ascending Message.CreatedAt (fst (fst r))
  /\ Forall (fun m => In m (messages trip_db)
                      /\ Message.ConversationID m = 1%N
                      /\ Message.DeletedAt m = None)
       (fst (fst r)).
Proof.
  exact (GetMessages_page (steady_env kyoto []) 1 1 1 50 trip_state
           eq_refl (steady_env_healthy kyoto [] 3 trip_state)
           ltac:(lia) ltac:(lia) ltac:(lia)).
Defined.

Lemma CreateConversation_then_Get_witness :
  let created :=
    CreateConversation (steady_env kyoto []) 2 "Recipes" trip_state in
  exists c,
    fst created = (Some c, None)
    /\ Conversation.UserID c = 2%N
    /\ Conversation.Title c = "Recipes"
    /\ Forall (fun c' => Conversation.ID c' <> Conversation.ID c)
         (conversations trip_db)
    /\ conversations (db (snd created)) = conversations trip_db ++ [c]
    /\ fst (GetConversation (steady_env kyoto []) 2 (Conversation.ID c)
              (snd created))
       = (Some c, None)
    /\ forall other,
         other <> 2%N ->
         fst (GetConversation (steady_env kyoto []) other (Conversation.ID c)
                (snd created))
         = (None, Some ErrRecordNotFound).
Proof.
  exact (CreateConversation_then_Get (steady_env kyoto []) 2 "Recipes"
           trip_state (steady_env_healthy kyoto [] 2 trip_state)).
Defined.

Lemma UpdateConversation_not_owner_witness :
  UpdateConversation (steady_env kyoto []) 2 1 "Mine now" trip_state
  = (None, mkState trip_db 1 []).
Proof.
  exact (UpdateConversation_not_owner (steady_env kyoto []) 2 1 "Mine now"
           trip_state eq_refl).
Defined.

Lemma UpdateConversation_then_Get_witness :
  let updated :=
    UpdateConversation (steady_env kyoto []) 1 1 "Summer trip" trip_state in
  fst updated = None
  /\ users (db (snd updated)) = users trip_db
  /\ messages (db (snd updated)) = messages trip_db
  /\ fst (GetConversation (steady_env kyoto []) 1 1 (snd updated))
     = (Some (Conversation.mk 1 1 "Summer trip" 20 1000 None), None).
Proof.
  exact (UpdateConversation_then_Get (steady_env kyoto []) 1 1 "Summer trip"
           trip_state trip (steady_env_healthy kyoto [] 2 trip_state)
           eq_refl).
Defined.

Lemma DeleteConversation_then_not_found_witness :
  let env := steady_env kyoto [] in
  let deleted := DeleteConversation env 1 1 trip_state in
  fst deleted = None
  /\ fst (GetConversation env 1 1 (snd deleted))
     = (None, Some ErrRecordNotFound)
  /\ fst (GetMessages env 1 1 1 50 (snd deleted))
     = ([], 0%Z, Some ErrRecordNotFound)
  /\ SendMessage env 1 1 (mkSendMessageRequest june) (snd deleted)
     = ((None, None, Some ErrRecordNotFound),
        mkState (db (snd deleted)) 4 []).
Proof.
  exact (DeleteConversation_then_not_found (steady_env kyoto []) 1 1
           trip_state 1 50 (mkSendMessageRequest june)
           (steady_env_healthy kyoto [] 4 trip_state)).
Defined.

Lemma StreamChat_completed_witness :
  let r := StreamChat (steady_env kyoto kyoto_stream) 1 1 june
             (fun _ => None) trip_state in
  fst r = Some (Some june_question, None)
  /\ messages (db (snd r)) = messages trip_db ++ [june_question; kyoto_answer]
  /\ exists c,
       select_first (owner_filter 1 1) (db (snd r)) = Ok c
       /\ Conversation.UpdatedAt c = Message.CreatedAt kyoto_answer.
Proof.
  exact (StreamChat_completed (steady_env kyoto kyoto_stream) 1 1 june
           (fun _ => None) trip_state
           [RecvChunk "Try "; RecvErr None; RecvChunk "Kyoto."] []
           eq_refl (steady_env_healthy kyoto kyoto_stream 5 trip_state)
           eq_refl eq_refl).
Defined.

Lemma StreamChat_callback_failure_witness :
  StreamChat (steady_env kyoto kyoto_stream) 1 1 june
    (fun chunk => if chunk =? "Kyoto." then Some (ErrExternal "broken pipe")
                  else None)
    trip_state
  = (Some (Some june_question, Some (ErrExternal "broken pipe")),
     mkState (with_message june_question trip_db) 3
       [history_input 1 (with_message june_question trip_db)]).
Proof.
  exact (StreamChat_callback_failure (steady_env kyoto kyoto_stream) 1 1 june
           (fun chunk => if chunk =? "Kyoto."
                         then Some (ErrExternal "broken pipe") else None)
           trip_state [RecvChunk "Try "; RecvErr None] "Kyoto."
           (ErrExternal "broken pipe") [RespClosed]
           eq_refl (steady_env_healthy kyoto kyoto_stream 3 trip_state)
           eq_refl eq_refl eq_refl).
Defined.

Lemma StreamChat_not_owner_witness :
  StreamChat (steady_env kyoto kyoto_stream) 2 1 june (fun _ => None)
    trip_state
  = (Some (None, Some ErrRecordNotFound), mkState trip_db 1 []).
Proof.
  exact (StreamChat_not_owner (steady_env kyoto kyoto_stream) 2 1 june
           (fun _ => None) trip_state eq_refl).
Defined.

Lemma model_input_of_a_turn_witness :
  let env := steady_env kyoto kyoto_stream in
  let history := select_ordered (in_conversation 1) 20
                   (with_message june_question trip_db) in
  ai_log (snd (SendMessage env 1 1 (mkSendMessageRequest june) trip_state))
  = [map to_ai_message history]
  /\ ai_log (snd (StreamChat env 1 1 june (fun _ => None) trip_state))
     = [map to_ai_message history]
  /\ (length history <= 20)%nat
  /\ ascending Message.CreatedAt history
  /\ Forall (fun m => Message.ConversationID m = 1%N
                      /\ Message.DeletedAt m = None)
       history
  /\ ((20 <= count_rows (in_conversation 1) trip_db)%Z
      \/ In june_question history).
Proof.
  exact (model_input_of_a_turn (steady_env kyoto kyoto_stream) 1 1 june
           (fun _ => None) trip_state
           eq_refl (steady_env_healthy kyoto kyoto_stream 3 trip_state)).
Defined.

Lemma Login_rejections_look_alike_witness :
  let env := steady_env kyoto [] in
  Login env stub_check (mkLoginRequest "carol@example.com" "pw123456")
    trip_state
  = ((None, Some (ErrNew "invalid email or password")), mkState trip_db 1 [])
  /\ Login env stub_check (mkLoginRequest "alice@example.com" "wrong-pw")
       trip_state
     = ((None, Some (ErrNew "invalid email or password")),
        mkState trip_db 1 []).
Proof.
  split.
  - exact (Login_rejections_look_alike (steady_env kyoto []) stub_check
             (mkLoginRequest "carol@example.com" "pw123456") trip_state
             eq_refl (or_introl eq_refl)).
  - exact (Login_rejections_look_alike (steady_env kyoto []) stub_check
             (mkLoginRequest "alice@example.com" "wrong-pw") trip_state
             eq_refl
             (or_intror (ex_intro _ alice (conj eq_refl eq_refl)))).
Defined.

Lemma Register_then_Login_witness :
  let env := steady_env kyoto [] in
  let registered := Register env alice_req (mkState empty_db 0 []) in
  let resp := mkLoginResponse "signed-token" alice_row in
  fst registered = (Some resp, None)
  /\ fst (Login env stub_check (mkLoginRequest "alice@example.com" "pw123456")
            (snd registered))
     = (Some resp, None)
  /\ fst (GetUserByID env 1 (snd registered)) = (Some alice_row, None).
Proof.
  split; [reflexivity|].
  exact (Register_then_Login (steady_env kyoto []) stub_check alice_req
           (mkState empty_db 0 [])
           (mkLoginResponse "signed-token" alice_row)
           (snd (Register (steady_env kyoto []) alice_req
                   (mkState empty_db 0 [])))
           eq_refl eq_refl eq_refl).
Defined.

Lemma Register_twice_no_second_row_witness :
  let env := faulty_env 2 kyoto in
  let first := Register env alice_req (mkState empty_db 0 []) in
  fst first = (Some (mkLoginResponse "signed-token" alice_row), None)
  /\ fst (fst (Register env alice_again (snd first))) = None
  /\ db (snd (Register env alice_again (snd first))) = db (snd first).
Proof.
  split; [reflexivity|].
  exact (Register_twice_no_second_row (faulty_env 2 kyoto) alice_req
           alice_again (mkState empty_db 0 [])
           (mkLoginResponse "signed-token" alice_row)
           (snd (Register (faulty_env 2 kyoto) alice_req
                   (mkState empty_db 0 [])))
           eq_refl eq_refl).
Defined.

Lemma ChangePassword_wrong_old_witness :
  ChangePassword (steady_env kyoto []) stub_check 1 "guess" "new-pw-1"
    trip_state
  = (Some (ErrNew "invalid old password"), mkState trip_db 1 []).
Proof.
  exact (ChangePassword_wrong_old (steady_env kyoto []) stub_check 1 "guess"
           "new-pw-1" trip_state alice eq_refl eq_refl eq_refl).
Defined.

Lemma ChangePassword_then_Login_witness :
  let env := steady_env kyoto [] in
  let changed := ChangePassword env stub_check 1 "pw123456" "new-pw-1"
                   trip_state in
  let alice' :=
    User.mk 1 "alice@example.com" "hashed:new-pw-1" "Alice" "" true 10 1001
      None in
  fst changed = None
  /\ fst (Login env stub_check (mkLoginRequest "alice@example.com" "new-pw-1")
            (snd changed))
     = (Some (mkLoginResponse "signed-token" alice'), None)
  /\ fst (Login env stub_check (mkLoginRequest "alice@example.com" "pw123456")
            (snd changed))
     = (None, Some (ErrNew "invalid email or password")).
Proof.
  pose proof (fun password =>
    ChangePassword_then_Login (steady_env kyoto []) stub_check 1 "pw123456"
      "new-pw-1" trip_state alice "hashed:new-pw-1" "signed-token" password
      (steady_env_healthy kyoto [] 3 trip_state)
      eq_refl eq_refl eq_refl eq_refl eq_refl) as W.
  cbv zeta in *.
  destruct (W "new-pw-1") as [W0 W1]. destruct (W "pw123456") as [_ W2].
  split; [exact W0|]. split; [exact W1|exact W2].
Defined.

Lemma UpdateProfile_then_Get_witness :
  let updated := UpdateProfile (steady_env kyoto []) 1 "Ally" "" trip_state in
  fst updated = None
  /\ fst (GetUserByID (steady_env kyoto []) 1 (snd updated))
     = (Some (User.mk 1 "alice@example.com" "hashed:pw123456" "Ally" "" true
                10 1000 None), None).
Proof.
  exact (UpdateProfile_then_Get (steady_env kyoto []) 1 "Ally" "" trip_state
           alice (steady_env_healthy kyoto [] 2 trip_state) eq_refl).
Defined.

Lemma totalPages_is_the_ceiling_witness :
  ((chat_handler.totalPages 41 20 - 1) * 20 < 41
   <= chat_handler.totalPages 41 20 * 20)%Z.
Proof.
  exact (totalPages_is_the_ceiling 41 20 ltac:(lia) ltac:(lia)).
Defined.

Lemma GetConversations_response_witness :
  exists conversations total pages,
    fst (chat_handler.GetConversations (steady_env kyoto []) alice_request
           trip_state)
    = chat_handler.JSON 200
        (chat_handler.PaginationResponse
           (chat_handler.Conversations conversations) total 1 20 pages)
    /\ (1 <= 1)%Z /\ (1 <= 20 <= 100)%Z
    /\ total = count_rows (of_user 1) trip_db
    /\ Z.of_nat (length conversations) = page_length total 1 20
    /\ Forall (fun c => Conversation.UserID c = 1%N) conversations
    /\ ((pages - 1) * 20 < total <= pages * 20)%Z.
Proof.
  exact (GetConversations_response (steady_env kyoto []) alice_request 1
           trip_state eq_refl (steady_env_healthy kyoto [] 2 trip_state)
           ltac:(vm_compute; reflexivity) ltac:(vm_compute; reflexivity)).
Defined.

Lemma foreign_conversation_statuses_witness :
  chat_handler.GetConversation (steady_env kyoto []) bob_request trip_state
  = (chat_handler.JSON 404
       (chat_handler.ErrorResponse
          (chat_handler.Literal "Conversation not found")),
     mkState trip_db 1 [])
  /\ chat_handler.GetMessages (steady_env kyoto []) bob_request trip_state
     = (chat_handler.JSON 500
          (chat_handler.ErrorResponse (chat_handler.ErrorOf ErrRecordNotFound)),
        mkState trip_db 1 []).
Proof.
  exact (foreign_conversation_statuses (steady_env kyoto []) bob_request 2 1
           trip_state eq_refl eq_refl eq_refl eq_refl).
Defined.

(** The middleware on three headers: a valid token behind the prefix, the
    same token without it, and an empty header. *)
Example Auth_on_three_headers :
  middleware.Auth stub_validate "secret" "Bearer signed-token"
    = middleware.Next 1
  /\ middleware.Auth stub_validate "secret" "signed-token"
     = middleware.Abort 401 "Invalid token format"
  /\ middleware.Auth stub_validate "secret" ""
     = middleware.Abort 401 "Authorization header required".
Proof. repeat split. Qed.

(** ** The goroutine of StreamResponse, its channels and the select loop *)

Section Streaming.
Import ai_service.

Lemma append_empty (a b : string) : (a ++ b)%string = "" -> a = "" /\ b = "".
Proof. destruct a; cbn; [auto|discriminate]. Qed.

Lemma append_empty_r (a : string) : (a ++ "")%string = a.
Proof. induction a; cbn; congruence. Qed.

Lemma buffered_text_app buf chunk :
  buffered_text (buf ++ [chunk]) = (buffered_text buf ++ chunk)%string.
Proof.
  induction buf as [|c buf IH]; cbn.
  - apply append_empty_r.
  - now rewrite IH, append_assoc.
Qed.

Lemma forward_shape recvs :
  exists chunks tail,
    forward recvs = map SendResp chunks ++ tail
    /\ Forall (fun chunk => chunk <> "") chunks
    /\ (tail = [] \/ tail = closes \/ exists err, tail = SendErr err :: closes).
Proof.
  induction recvs as [|r recvs [chunks [tail [E [Hne Htail]]]]].
  - exists [], []. cbn. auto.
  - destruct r as [[m|] done| |err]; cbn [forward].
    + destruct (schema.Content m =? "") eqn:Em;
        [exists chunks, tail; auto|].
      destruct done.
      * exists [], closes. cbn. auto.
      * exists (schema.Content m :: chunks), tail. cbn. rewrite E.
        split; [reflexivity|]. split; [|exact Htail].
        constructor; [now apply String.eqb_neq|exact Hne].
    + exists chunks, tail. auto.
    + exists [], closes. cbn. auto.
    + exists [], (SendErr err :: closes). cbn.
      split; [reflexivity|]. split; [constructor|]. right. right. eauto.
Qed.

(** The goroutine of StreamResponse, on its own: it sends chunks, all with
    content, and then at most one error, after which it sends nothing; when
    it returns it closes the error channel and then the chunk channel, and
    it never closes a channel without returning. *)
Theorem goroutine_shape stream :
  exists chunks tail,
    StreamResponse_goroutine stream = map SendResp chunks ++ tail
    /\ Forall (fun chunk => chunk <> "") chunks
    /\ (tail = [] \/ tail = closes \/ exists err, tail = SendErr err :: closes).
Proof.
  destruct stream as [recvs|err]; cbn.
  - apply forward_shape.
  - exists [], (SendErr (ErrWrap "failed to create stream" err) :: closes).
    cbn. split; [reflexivity|]. split; [constructor|]. right. right. eauto.
Qed.

Lemma sent_text_app a b :
  sent_text (a ++ b) = (sent_text a ++ sent_text b)%string.
Proof.
  induction a as [|op a IH]; cbn; [reflexivity|].
  destruct op; cbn; rewrite ?IH, ?append_assoc; reflexivity.
Qed.

Lemma goroutine_closed_last stream :
  closed_last (StreamResponse_goroutine stream).
Proof.
  destruct stream as [recvs|err]; cbn; [|reflexivity].
  destruct (forward_shape recvs) as [chunks [tail [-> [_ Htail]]]].
  induction chunks as [|c chunks IH]; cbn.
  - destruct Htail as [->|[->|[err ->]]]; cbn; auto.
  - exact IH.
Qed.

Lemma text_empty_closed_last ops : sent_text ops = "" -> closed_last ops.
Proof.
  induction ops as [|op ops IH]; cbn; [auto|].
  destruct op; auto. intros H. apply append_empty in H. tauto.
Qed.

Lemma closed_last_tail op ops : closed_last (op :: ops) -> closed_last ops.
Proof.
  destruct op; cbn; auto. apply text_empty_closed_last.
Qed.

Section Loop.
Variable callback : string -> option error.

Lemma observes_text ops c events :
  observes ops c events ->
  closed_last ops ->
  (resp_closed c = true -> sent_text ops = "") ->
  forall acc full,
    stream_loop callback events acc = StreamEnd full ->
    full = (acc ++ buffered_text (resp_buf c) ++ sent_text ops)%string.
Proof.
  induction 1 as [ops c
                 |op ops c c' events Hp Hobs IH
                 |ops chunk rest closed eb ec events Hobs IH
                 |ops eb ec events Hobs IH
                 |ops rb rc err ec events Hobs IH
                 |ops rb rc events Hobs IH];
    intros Hlast Hclosed acc full Hloop.
  - cbn [stream_loop] in Hloop. discriminate.
  - pose proof (closed_last_tail _ _ Hlast) as Hlast'.
    destruct op; unfold produce in Hp.
    + destruct (negb (resp_closed c) && (length (resp_buf c) <? resp_cap)%nat);
        [|discriminate].
      injection Hp as <-. cbn [resp_buf resp_closed sent_text] in *.
      rewrite (IH Hlast') with (acc := acc) (full := full); auto.
      * now rewrite buffered_text_app, !append_assoc.
      * intros Hc. apply Hclosed in Hc. apply append_empty in Hc. tauto.
    + destruct (err_buf c); [discriminate|].
      destruct (negb (err_closed c)); [|discriminate].
      injection Hp as <-. cbn [resp_buf resp_closed sent_text] in *.
      apply IH; auto.
    + destruct (err_closed c); [discriminate|].
      injection Hp as <-. cbn [resp_buf resp_closed sent_text] in *.
      apply IH; auto.
    + destruct (resp_closed c); [discriminate|].
      injection Hp as <-. cbn [resp_buf resp_closed sent_text] in *.
      apply IH; auto.
  - cbn [stream_loop] in Hloop.
    destruct (callback chunk); [discriminate|].
    cbn [resp_buf resp_closed buffered_text] in *.
    rewrite (IH Hlast Hclosed _ _ Hloop). now rewrite !append_assoc.
  - cbn [stream_loop] in Hloop. injection Hloop as <-.
    cbn [resp_buf resp_closed buffered_text] in *.
    rewrite (Hclosed eq_refl). cbn. now rewrite append_empty_r.
  - cbn [stream_loop] in Hloop. discriminate.
  - cbn [stream_loop] in Hloop. cbn [resp_buf resp_closed] in *.
    apply IH; auto.
Qed.

(** The select loop of StreamChat on the channels of StreamResponse: in
    every interleaving of the goroutine and the loop, if the loop leaves by
    [StreamEnd], the text it has accumulated is the concatenation, in
    order, of all the chunks the goroutine sends; no chunk is lost in a
    buffer, duplicated or reordered. *)
Theorem StreamEnd_has_the_whole_text stream events full :
  observes (StreamResponse_goroutine stream) fresh events ->
  stream_loop callback events "" = StreamEnd full ->
  full = sent_text (StreamResponse_goroutine stream).
Proof.
  intros Hobs Hloop.
  exact (observes_text _ _ _ Hobs (goroutine_closed_last stream)
           ltac:(discriminate) "" full Hloop).
Qed.

Lemma observes_error ops c events :
  observes ops c events ->
  forall acc err,
    stream_loop callback events acc = ReturnErr err ->
    (exists chunk, callback chunk = Some err)
    \/ err_buf c = Some err \/ In (SendErr err) ops.
Proof.
  induction 1 as [ops c
                 |op ops c c' events Hp Hobs IH
                 |ops chunk rest closed eb ec events Hobs IH
                 |ops eb ec events Hobs IH
                 |ops rb rc err0 ec events Hobs IH
                 |ops rb rc events Hobs IH];
    intros acc err Hloop.
  - cbn [stream_loop] in Hloop. discriminate.
  - destruct (IH _ _ Hloop) as [H|[H|H]]; [now left| |right; right; now right].
    destruct op; unfold produce in Hp.
    + destruct (negb (resp_closed c) && (length (resp_buf c) <? resp_cap)%nat);
        [|discriminate].
      injection Hp as <-. cbn in H. auto.
    + destruct (err_buf c); [discriminate|].
      destruct (negb (err_closed c)); [|discriminate].
      injection Hp as <-. cbn in H. injection H as ->.
      right. right. now left.
    + destruct (err_closed c); [discriminate|].
      injection Hp as <-. cbn in H. auto.
    + destruct (resp_closed c); [discriminate|].
      injection Hp as <-. cbn in H. auto.
  - cbn [stream_loop] in Hloop.
    destruct (callback chunk) as [e|] eqn:Ec.
    + injection Hloop as <-. left. eauto.
    + destruct (IH _ _ Hloop) as [H|[H|H]]; auto.
  - cbn [stream_loop] in Hloop. discriminate.
  - cbn [stream_loop] in Hloop. injection Hloop as <-. cbn. auto.
  - cbn [stream_loop] in Hloop.
    destruct (IH _ _ Hloop) as [H|[H|H]]; auto.
Qed.

(** In every interleaving, an error the loop returns is an error the
    callback returned for some chunk or the one error the goroutine put in
    the error channel; the loop invents none. *)
Theorem ReturnErr_has_a_source stream events err :
  observes (StreamResponse_goroutine stream) fresh events ->
  stream_loop callback events "" = ReturnErr err ->
  (exists chunk, callback chunk = Some err)
  \/ In (SendErr err) (StreamResponse_goroutine stream).
Proof.
  intros Hobs Hloop.
  destruct (observes_error _ _ _ Hobs _ _ Hloop) as [H|[H|H]]; auto.
  discriminate.
Qed.

End Loop.
End Streaming.

Section StreamingTurn.
Import ai_service.
Variable env : Env.

(** A streaming turn on the channels of StreamResponse, for the owner and
    with a store that executes its five statements: in every interleaving
    of the goroutine and the loop, when StreamChat returns without an
    error, the assistant message it has stored after the user message
    carries all the text the goroutine sent, in order. *)
Theorem StreamChat_stores_the_whole_text userID conversationID content
  callback s stream um :
  owns (db s) userID conversationID = true ->
  healthy env 5 s ->
  observes (StreamResponse_goroutine stream) fresh
    (stream_plan env (length (ai_log s))) ->
  let r := StreamChat env userID conversationID content callback s in
  fst r = Some (Some um, None) ->
  exists am,
    messages (db (snd r)) = messages (db s) ++ [um; am]
    /\ Message.Role am = "assistant"
    /\ Message.Content am = sent_text (StreamResponse_goroutine stream).
Proof.
  intros Hown Hh Hobs. cbv zeta.
  destruct (owner_found _ _ _ Hown) as [c [Hc _]].
  destruct s as [d k log]. advance in *.
  assert (healthy env 3 (mkState d k log)) as Hh3
    by (intros i Hi; apply Hh; lia).
  destruct (healthy3 _ _ _ _ Hh3) as [F0 [F1 F2]].
  pose proof (Hh 3%nat) as F3. pose proof (Hh 4%nat) as F4.
  cbn [stmt_no] in F3, F4.
  replace (k + 3)%nat with (S (S (S k))) in F3 by lia.
  replace (k + 4)%nat with (S (S (S (S k)))) in F4 by lia.
  unfold StreamChat, bind, First, Create, Find_Order_Limit, Update_updated_at,
    statement, StreamResponse, ret.
  advance. rewrite F0.
  fold (owner_filter userID conversationID). rewrite Hc.
  advance. rewrite F1. rewrite insert_message.
  advance. rewrite F2. advance.
  destruct (stream_loop callback (stream_plan env (length log)) "")
    as [full|err|] eqn:Hloop; [|discriminate|discriminate].
  pose proof (observes_text callback _ _ _ Hobs
                (goroutine_closed_last stream) ltac:(discriminate) "" full
                Hloop) as Htext.
  cbn [append resp_buf fresh buffered_text] in Htext.
  advance. rewrite F3 by lia. rewrite insert_message.
  advance. rewrite F4 by lia. cbn [fst snd db].
  intros [= <-]. eexists. split; [|split].
  - unfold set_updated_at, with_message.
    cbn [with_table messages Model_Conversation].
    rewrite <- app_assoc. reflexivity.
  - reflexivity.
  - cbn. exact Htext.
Qed.

End StreamingTurn.

Lemma kyoto_stream_observed :
  ai_service.observes (ai_service.StreamResponse_goroutine kyoto_recvs)
    ai_service.fresh kyoto_stream.
Proof.
  cbn.
  eapply ai_service.obs_produce; [reflexivity|].
  eapply ai_service.obs_produce; [reflexivity|].
  eapply ai_service.obs_produce; [reflexivity|].
  apply ai_service.obs_chunk. apply ai_service.obs_err_closed.
  apply ai_service.obs_chunk.
  eapply ai_service.obs_produce; [reflexivity|].
  apply ai_service.obs_resp_closed. apply ai_service.obs_stop.
Qed.

Lemma reset_stream_observed :
  ai_service.observes (ai_service.StreamResponse_goroutine reset_recvs)
    ai_service.fresh
    [RecvChunk "Try "; RecvErr (Some (ErrExternal "connection reset"))].
Proof.
  cbn.
  eapply ai_service.obs_produce; [reflexivity|].
  eapply ai_service.obs_produce; [reflexivity|].
  apply ai_service.obs_chunk. apply ai_service.obs_err.
  apply ai_service.obs_stop.
Qed.

(** The same broken stream, with the close of the chunk channel taken by
    the select while the error still sits in the error channel. *)
Lemma close_first_stream_observed :
  ai_service.observes (ai_service.StreamResponse_goroutine reset_recvs)
    ai_service.fresh close_first_stream.
Proof.
  cbn.
  eapply ai_service.obs_produce; [reflexivity|].
  eapply ai_service.obs_produce; [reflexivity|].
  eapply ai_service.obs_produce; [reflexivity|].
  eapply ai_service.obs_produce; [reflexivity|].
  apply ai_service.obs_chunk. apply ai_service.obs_resp_closed.
  apply ai_service.obs_err. apply ai_service.obs_stop.
Qed.

(** C1, at a turn the provider aborts mid-stream: the provider's stream
    breaks after one chunk; the goroutine of StreamResponse puts the error
    in the error channel and, returning, closes both channels; the select
    of StreamChat, for which the error and the close of the chunk channel
    are then both ready, takes the close.  The two channels allow this run
    (first two conjuncts); in it StreamChat returns the user message and no
    error, and has stored the text received so far as an assistant
    message. *)
Theorem StreamChat_provider_error_lost :
  In (ai_service.SendErr (ErrExternal "connection reset"))
    (ai_service.StreamResponse_goroutine reset_recvs)
  /\ ai_service.observes (ai_service.StreamResponse_goroutine reset_recvs)
       ai_service.fresh close_first_stream
  /\ let r := StreamChat (steady_env kyoto close_first_stream) 1 1 june
                (fun _ => None) trip_state in
     fst r = Some (Some june_question, None)
     /\ messages (db (snd r))
        = messages trip_db
          ++ [june_question; Message.mk 4 1 "assistant" "Try " 1003 1003 None].
Proof.
  split; [cbn; auto|].
  split; [exact close_first_stream_observed|].
  split; reflexivity.
Qed.

Lemma StreamEnd_has_the_whole_text_witness :
  "Try Kyoto."
  = ai_service.sent_text (ai_service.StreamResponse_goroutine kyoto_recvs).
Proof.
  exact (StreamEnd_has_the_whole_text (fun _ => None) kyoto_recvs kyoto_stream
           "Try Kyoto." kyoto_stream_observed eq_refl).
Defined.

Lemma ReturnErr_has_a_source_witness :
  (exists chunk, (fun _ : string => @None error) chunk
                 = Some (ErrExternal "connection reset"))
  \/ In (ai_service.SendErr (ErrExternal "connection reset"))
       (ai_service.StreamResponse_goroutine reset_recvs).
Proof.
  exact (ReturnErr_has_a_source (fun _ => None) reset_recvs
           [RecvChunk "Try "; RecvErr (Some (ErrExternal "connection reset"))]
           (ErrExternal "connection reset") reset_stream_observed eq_refl).
Defined.

Lemma StreamChat_stores_the_whole_text_witness :
  let r := StreamChat (steady_env kyoto kyoto_stream) 1 1 june (fun _ => None)
             trip_state in
  exists am,
    messages (db (snd r)) = messages trip_db ++ [june_question; am]
    /\ Message.Role am = "assistant"
    /\ Message.Content am
       = ai_service.sent_text (ai_service.StreamResponse_goroutine kyoto_recvs).
Proof.
  exact (StreamChat_stores_the_whole_text (steady_env kyoto kyoto_stream) 1 1
           june (fun _ => None) trip_state kyoto_recvs june_question
           eq_refl (steady_env_healthy kyoto kyoto_stream 5 trip_state)
           kyoto_stream_observed eq_refl).
Defined.
